(** * pySCENIC ranking databases ([pyscenic/rnkdb.py])

    A shallow embedding of the class [RankingDatabase]: the world outside
    the interpreter (paths and what SQLite opens at a URI), the statements
    the class sends, the NumPy operations it relies on ([np.empty],
    [np.frombuffer], assignment to a column, [np.array] of strings), its
    constructor and its two loaders, followed by the properties proved about
    them. *)

From Stdlib Require Import ZArith.
From Stdlib.Strings Require Import Ascii String Byte.
From stdpp Require Import base list strings gmap sorting.

Local Open Scope Z_scope.

(** ** Exceptions and the state the code runs in *)

(** The Python exceptions that the modelled code can raise. *)
Inductive exn : Type :=
  | AssertionError (msg : string)
  | ValueError (msg : string)
  | IndexError (msg : string)
  | OperationalError (msg : string)
  | DatabaseError (msg : string)
  | ProgrammingError (msg : string).

Inductive result (A : Type) : Type :=
  | Ok (a : A)
  | Raise (e : exn).
Arguments Ok {A} a.
Arguments Raise {A} e.

Definition is_ok {A} (r : result A) : bool :=
  match r with Ok _ => true | Raise _ => false end.

Definition rbind {A B} (r : result A) (k : A → result B) : result B :=
  match r with Ok a => k a | Raise e => Raise e end.

(** [np.int16] and [np.int32]. *)
Inductive dtype : Type := int16 | int32.

Definition itemsize (dt : dtype) : nat :=
  match dt with int16 => 2%nat | int32 => 4%nat end.

Definition bits (dt : dtype) : Z :=
  match dt with int16 => 16 | int32 => 32 end.

(** What the interpreter does that a caller can observe. *)
Inductive event : Type :=
  | EvConnect (uri : string)
  | EvExecute (sql : string)
  | EvAlloc (rows cols : nat) (dt : dtype).

(** The state threaded through the code: the cache of [cytoolz.memoize]
    around [genes], keyed by the instance; the identity the next instance
    gets; the contents of memory that [np.empty] hands out without
    initialising it; the log of events. *)
Record state : Type := State {
  genes_cache : gmap nat (list string);
  next_id : nat;
  uninit : nat → nat → Z;
  events : list event
}.

Definition M (A : Type) : Type := state → result A * state.

Definition ret {A} (a : A) : M A := λ st, (Ok a, st).

Definition raise {A} (e : exn) : M A := λ st, (Raise e, st).

Definition bind {A B} (m : M A) (k : A → M B) : M B :=
  λ st, match m st with
        | (Ok a, st') => k a st'
        | (Raise e, st') => (Raise e, st')
        end.

Definition lift {A} (r : result A) : M A := λ st, (r, st).

Definition emit (e : event) : M unit :=
  λ st, (Ok tt, State (genes_cache st) (next_id st) (uninit st) (events st ++ [e])).

Notation "'let*' x ':=' m 'in' k" := (bind m (λ x, k))
  (at level 10, x name, m at level 100, k at level 200, only parsing).

(** [assert cond, msg] *)
Definition assert (cond : bool) (msg : string) : M unit :=
  if cond then ret tt else raise (AssertionError msg).

(** ** NumPy *)

(** Little-endian value of a run of bytes. *)
Fixpoint le_unsigned (bs : list byte) : Z :=
  match bs with
  | [] => 0
  | b :: bs' => Z.of_N (Byte.to_N b) + 256 * le_unsigned bs'
  end.

(** Two's complement reading of an unsigned value of [w] bits. *)
Definition to_signed (w : Z) (u : Z) : Z :=
  if u <? 2 ^ (w - 1) then u else u - 2 ^ w.

Fixpoint decode_items (dt : dtype) (count : nat) (buf : list byte) : list Z :=
  match count with
  | O => []
  | S c =>
      to_signed (bits dt) (le_unsigned (take (itemsize dt) buf))
      :: decode_items dt c (drop (itemsize dt) buf)
  end.

(** [np.frombuffer(buf, dtype=dt)]: the buffer is read as
    [len(buf) / itemsize] items in native (little-endian) byte order; a
    length that is no multiple of the item size is refused. *)
Definition frombuffer (buf : list byte) (dt : dtype) : result (list Z) :=
  if (length buf mod itemsize dt =? 0)%nat
  then Ok (decode_items dt (length buf / itemsize dt) buf)
  else Raise (ValueError "buffer size must be a multiple of element size").

(** A two-dimensional array, held by columns; [shape] is (rows, columns). *)
Record ndarray : Type := NdArray {
  shape : nat * nat;
  columns : list (list Z)
}.

(** [np.empty(shape=(rows, cols), dtype=dt)]: cell (r, c) holds whatever
    the memory held. *)
Definition empty_array (mem : nat → nat → Z) (rows cols : nat) : ndarray :=
  NdArray (rows, cols) ((λ c, (λ r, mem r c) <$> seq 0 rows) <$> seq 0 cols).

Definition np_empty (rows cols : nat) (dt : dtype) : M ndarray :=
  λ st, (Ok (empty_array (uninit st) rows cols),
         State (genes_cache st) (next_id st) (uninit st)
               (events st ++ [EvAlloc rows cols dt])).

(** Broadcasting of a one-dimensional value to a column of [rows] cells:
    a value of that length is taken as it is, a value of length one is
    repeated, any other length is refused. *)
Definition broadcast_to (rows : nat) (v : list Z) : option (list Z) :=
  if (length v =? rows)%nat then Some v
  else match v with
       | [x] => Some (replicate rows x)
       | _ => None
       end.

(** [a[:, idx] = v] for [idx >= 0]. *)
Definition set_column (a : ndarray) (idx : nat) (v : list Z) : result ndarray :=
  if (idx <? (shape a).2)%nat then
    match broadcast_to (shape a).1 v with
    | Some col => Ok (NdArray (shape a) (<[idx := col]> (columns a)))
    | None => Raise (ValueError "could not broadcast input array")
    end
  else Raise (IndexError "index is out of bounds for axis 1").

Definition nul : ascii := "000"%char.

(** A string without its trailing NUL characters. *)
Fixpoint rstrip_nul (s : string) : string :=
  match s with
  | EmptyString => EmptyString
  | String c rest =>
      match rstrip_nul rest with
      | EmptyString => if decide (c = nul) then EmptyString else String c EmptyString
      | String c' rest' => String c (String c' rest')
      end
  end.

(** [np.array(values, dtype='U')] on a sequence of strings: an array of
    fixed-width strings padded with NUL, whose items are read back without
    their trailing NUL characters. *)
Definition np_array_U (values : list string) : list string := rstrip_nul <$> values.

(** ** The world outside: paths and SQLite *)

(** A store: the table [motifs] with the columns [motifName] and [idx],
    the table [rankings] with the columns [geneID] and [ranking]; a table
    that the store lacks is [None]. The rows of a table are listed in the
    order of their row identifiers. Identifiers are held as their UTF-8
    bytes, which is what SQLite compares. *)
Record Database : Type := {
  motifs : option (list (string * Z));
  rankings : option (list (string * list byte))
}.

(** What a connection has at its end: a store, or a file that is no
    database. *)
Inductive file : Type :=
  | Store (db : Database)
  | NotADatabase.

(** What the code asks of the world: whether a path exists
    ([os.path.exists]), the absolute form of a path ([os.path.abspath]), and
    what [sqlite3.connect(uri, uri=True)] gives for a URI, an exception or
    a connection. How SQLite reads the URI (where the file name ends, which
    characters it decodes, which mode it opens in) is the world's; nothing
    is assumed of it. *)
Record World : Type := {
  path_exists : string → bool;
  abspath : string → string;
  sqlite_open : string → result file
}.

Definition GENE_ID_COUNT_QUERY : string := "SELECT COUNT(*) FROM rankings;".
Definition FEATURE_IDS_QUERY : string := "SELECT motifName FROM motifs ORDER BY idx;".
Definition ALL_GENE_IDS_QUERY : string := "SELECT geneID FROM rankings ORDER BY geneID;".
Definition ALL_RANKINGS_QUERY : string :=
  "SELECT geneID, ranking FROM rankings ORDER BY geneID;".

(** [RANKINGS_QUERY] is a format string with one field: [RANKINGS_HEAD] is
    its text before the field; after the field come the closing parenthesis
    and [RANKINGS_TAIL]. *)
Definition RANKINGS_HEAD : string :=
  "SELECT geneID, ranking FROM rankings WHERE geneID IN (".
Definition RANKINGS_TAIL : string := " ORDER BY geneID;".

(** [RANKINGS_QUERY.format(arg)] *)
Definition RANKINGS_QUERY_format (arg : string) : string :=
  RANKINGS_HEAD +:+ arg +:+ ")" +:+ RANKINGS_TAIL.

(** The order of the BINARY collation, byte by byte and a proper prefix
    first, is [String.le]. *)
Definition by_geneID (r1 r2 : string * list byte) : Prop := String.le r1.1 r2.1.

Definition by_idx (m1 m2 : string * Z) : Prop := m1.2 ≤ m2.2.

#[global] Instance by_geneID_dec : RelDecision by_geneID.
Proof. intros r1 r2. unfold by_geneID. apply _. Defined.

#[global] Instance by_idx_dec : RelDecision by_idx.
Proof. intros m1 m2. unfold by_idx. apply _. Defined.

(** [ORDER BY]: the rows in ascending order of the key, rows with equal
    keys in the order of the table. A row is inserted before the first row
    that it does not come after. *)
Fixpoint insert_by {A} (R : relation A) `{!RelDecision R} (x : A) (l : list A)
  : list A :=
  match l with
  | [] => [x]
  | y :: l' => if decide (R x y) then x :: l else y :: insert_by R x l'
  end.

Definition order_by {A} (R : relation A) `{!RelDecision R} (l : list A) : list A :=
  foldr (insert_by R) [] l.

(** [... ORDER BY geneID] and [... ORDER BY idx] *)
Definition order_by_geneID (rows : list (string * list byte)) : list (string * list byte) :=
  order_by by_geneID rows.

Definition order_by_idx (rows : list (string * Z)) : list (string * Z) :=
  order_by by_idx rows.

(** Reading a table through a connection: a file that is no database and
    a store without the table make the statement fail. *)
Definition read_motifs (f : file) : result (list (string * Z)) :=
  match f with
  | Store db =>
      match motifs db with
      | Some rows => Ok rows
      | None => Raise (OperationalError "no such table: motifs")
      end
  | NotADatabase => Raise (DatabaseError "file is not a database")
  end.

Definition read_rankings (f : file) : result (list (string * list byte)) :=
  match f with
  | Store db =>
      match rankings db with
      | Some rows => Ok rows
      | None => Raise (OperationalError "no such table: rankings")
      end
  | NotADatabase => Raise (DatabaseError "file is not a database")
  end.

(** What the statements return on the rows of [rankings]. *)
Definition gene_ids (rows : list (string * list byte)) : list string :=
  (order_by_geneID rows).*1.

Definition all_rankings (rows : list (string * list byte)) : list (string * list byte) :=
  order_by_geneID rows.

(** The rows whose [geneID] is one of [ids], ordered by [geneID]. *)
Definition rankings_in (rows : list (string * list byte)) (ids : list string)
  : list (string * list byte) :=
  order_by_geneID (filter (λ r, r.1 ∈ ids) rows).

Definition select_count (f : file) : result Z :=
  rbind (read_rankings f) (λ rows, Ok (Z.of_nat (length rows))).

Definition select_features (f : file) : result (list string) :=
  rbind (read_motifs f) (λ rows, Ok (order_by_idx rows).*1).

Definition select_gene_ids (f : file) : result (list string) :=
  rbind (read_rankings f) (λ rows, Ok (gene_ids rows)).

Definition select_all_rankings (f : file) : result (list (string * list byte)) :=
  rbind (read_rankings f) (λ rows, Ok (all_rankings rows)).

Definition select_rankings_in (f : file) (ids : list string)
  : result (list (string * list byte)) :=
  rbind (read_rankings f) (λ rows, Ok (rankings_in rows ids)).

(** The rows of [rankings] that a connection to [uri] reads. *)
Definition stored_rankings (w : World) (uri : string)
  : result (list (string * list byte)) :=
  rbind (sqlite_open w uri) read_rankings.

(** Reading of the list after [IN (]: string literals between single
    quotes, separated by commas, up to the closing parenthesis. Inside a
    literal two single quotes stand for one. The reader is in one of four
    places: at the start of the list, after a comma, inside a literal, or
    just after a quote seen inside a literal (the literal ends there unless
    another quote follows). The generated list has no blanks, so none are
    skipped. *)
Inductive lexer : Type :=
  | AtStart
  | AfterComma
  | InLiteral (cur : string)
  | QuoteSeen (cur : string).

Definition quote_char : ascii := "'"%char.

Fixpoint lex_in_list (st : lexer) (done : list string) (s : string)
  : option (list string * string) :=
  match s with
  | EmptyString => None
  | String c rest =>
      match st with
      | AtStart =>
          if decide (c = quote_char) then lex_in_list (InLiteral "") done rest
          else if decide (c = ")"%char) then Some (done, rest)
          else None
      | AfterComma =>
          if decide (c = quote_char) then lex_in_list (InLiteral "") done rest
          else None
      | InLiteral cur =>
          if decide (c = quote_char) then lex_in_list (QuoteSeen cur) done rest
          else lex_in_list (InLiteral (cur +:+ String c "")) done rest
      | QuoteSeen cur =>
          if decide (c = quote_char)
          then lex_in_list (InLiteral (cur +:+ String c "")) done rest
          else if decide (c = ","%char) then lex_in_list AfterComma (done ++ [cur]) rest
          else if decide (c = ")"%char) then Some (done ++ [cur], rest)
          else None
      end
  end.

Fixpoint strip_prefix (p s : string) : option string :=
  match p with
  | EmptyString => Some s
  | String a p' =>
      match s with
      | EmptyString => None
      | String b s' => if decide (a = b) then strip_prefix p' s' else None
      end
  end.

(** Whether a string holds a NUL character. *)
Fixpoint has_nul (s : string) : bool :=
  match s with
  | EmptyString => false
  | String c rest => bool_decide (c = nul) || has_nul rest
  end.

(** [sqlite3.connect(uri, uri=True)] *)
Definition connect (w : World) (uri : string) : M file :=
  let* _ := emit (EvConnect uri) in
  lift (sqlite_open w uri).

(** [cursor.execute(sql)] for a statement made from [RANKINGS_QUERY]. The
    module [sqlite3] refuses a statement that holds a NUL character before
    SQLite sees it. *)
Definition execute_rankings_query (f : file) (sql : string)
  : M (list (string * list byte)) :=
  let* _ := emit (EvExecute sql) in
  if has_nul sql
  then raise (ProgrammingError "the query contains a null character")
  else
    match strip_prefix RANKINGS_HEAD sql with
    | Some rest =>
        match lex_in_list AtStart [] rest with
        | Some (ids, tail) =>
            if decide (tail = RANKINGS_TAIL) then lift (select_rankings_in f ids)
            else raise (OperationalError "syntax error")
        | None => raise (OperationalError "syntax error")
        end
    | None => raise (OperationalError "syntax error")
    end.

(** ** Gene signatures *)

(** Modelled from the spec: the class [GeneSignature] of the module
    [genesig], which is not among the sources. The spec gives it as a set of
    gene identifiers; the loader uses its truth value (that of its length),
    its length and its attribute [genes]. *)
Abbreviation GeneSignature := (gset string).

Definition gs_genes (gs : GeneSignature) : list string := elements gs.

Definition gs_len (gs : GeneSignature) : nat := size gs.

Definition gs_bool (gs : GeneSignature) : bool := negb (gs_len gs =? 0)%nat.

(** ** The class [RankingDatabase] *)

(** An instance: its identity, then its attributes. *)
Record RankingDatabase : Type := {
  self_id : nat;
  _fname : string;
  _name : string;
  _nomenclature : string;
  _uri : string;
  _features : list string;
  _gene_count : Z;
  _dtype : dtype
}.

(** The truth value of a string: it is not empty. *)
Definition str_bool (s : string) : bool := negb (String.eqb s "").

Definition derive_dtype (n : Z) : dtype :=
  if n <=? 2 ^ 15 then int16 else int32.

(** ['file:{}?mode=ro'.format(os.path.abspath(fname))] *)
Definition uri_of (w : World) (fname : string) : string :=
  "file:" +:+ abspath w fname +:+ "?mode=ro".

Definition fetch_features (w : World) (uri : string) : M (list string) :=
  let* f := connect w uri in
  let* _ := emit (EvExecute FEATURE_IDS_QUERY) in
  lift (select_features f).

Definition fetch_gene_count (w : World) (uri : string) : M Z :=
  let* f := connect w uri in
  let* _ := emit (EvExecute GENE_ID_COUNT_QUERY) in
  lift (select_count f).

(** The instance under construction gets the next identity. *)
Definition new_object : M nat :=
  λ st, (Ok (next_id st),
         State (genes_cache st) (S (next_id st)) (uninit st) (events st)).

Definition __init__ (w : World) (fname name nomenclature : string)
  : M RankingDatabase :=
  let* self := new_object in
  let* _ := assert (path_exists w fname)
                   ("Database " +:+ fname +:+ " doesn't exist.") in
  let* _ := assert (str_bool name) "Name must be specified." in
  let* _ := assert (str_bool nomenclature) "Nomenclature must be specified." in
  let uri := uri_of w fname in
  let* features := fetch_features w uri in
  let* gene_count := fetch_gene_count w uri in
  ret {| self_id := self; _fname := fname; _name := name;
         _nomenclature := nomenclature; _uri := uri;
         _features := features; _gene_count := gene_count;
         _dtype := derive_dtype gene_count |}.

Definition name (self : RankingDatabase) : string := _name self.
Definition nomenclature (self : RankingDatabase) : string := _nomenclature self.
Definition total_genes (self : RankingDatabase) : Z := _gene_count self.
Definition features (self : RankingDatabase) : list string := _features self.

Definition memoize_store (key : nat) (value : list string) : M unit :=
  λ st, (Ok tt,
         State (<[key := value]> (genes_cache st)) (next_id st) (uninit st) (events st)).

(** The memoized property [genes]: computed at the first access of an
    instance, read from the cache afterwards. *)
Definition genes (w : World) (self : RankingDatabase) : M (list string) :=
  λ st, match genes_cache st !! self_id self with
        | Some cached => (Ok cached, st)
        | None =>
            (let* f := connect w (_uri self) in
             let* _ := emit (EvExecute ALL_GENE_IDS_QUERY) in
             let* genes := lift (select_gene_ids f) in
             let* _ := memoize_store (self_id self) genes in
             ret genes) st
        end.

(** The loop of [load_full]: the blob of the row at position [idx] is
    decoded and assigned to column [idx]. *)
Fixpoint fill_full (dt : dtype) (rows : list (string * list byte)) (idx : nat)
    (rankings : ndarray) : result ndarray :=
  match rows with
  | [] => Ok rankings
  | (_, ranking) :: rest =>
      match frombuffer ranking dt with
      | Ok v =>
          match set_column rankings idx v with
          | Ok rankings' => fill_full dt rest (S idx) rankings'
          | Raise e => Raise e
          end
      | Raise e => Raise e
      end
  end.

Definition load_full (w : World) (self : RankingDatabase)
  : M (list string * list string * ndarray) :=
  let* all_genes := genes w self in
  let* rankings := np_empty (length (features self)) (length all_genes) (_dtype self) in
  let* f := connect w (_uri self) in
  let* _ := emit (EvExecute ALL_RANKINGS_QUERY) in
  let* rows := lift (select_all_rankings f) in
  let* rankings := lift (fill_full (_dtype self) rows 0 rankings) in
  let* all_genes := genes w self in
  ret (np_array_U (features self), np_array_U all_genes, rankings).

(** [value.replace(old, new)] for a pattern of one character. *)
Fixpoint str_replace (old : ascii) (new : string) (value : string) : string :=
  match value with
  | EmptyString => EmptyString
  | String c rest =>
      if decide (c = old) then new +:+ str_replace old new rest
      else String c (str_replace old new rest)
  end.

Definition quote (value : string) : string :=
  "'" +:+ str_replace quote_char "''" value +:+ "'".

Definition quoted_csv (values : list string) : string :=
  String.concat "," (quote <$> values).

(** The loop of [load]: as in [load_full], and the identifier of every row
    is appended to [genes]. *)
Fixpoint fill_filtered (dt : dtype) (rows : list (string * list byte)) (idx : nat)
    (rankings : ndarray) (genes : list string) : result (ndarray * list string) :=
  match rows with
  | [] => Ok (rankings, genes)
  | (gene, ranking) :: rest =>
      match frombuffer ranking dt with
      | Ok v =>
          match set_column rankings idx v with
          | Ok rankings' => fill_filtered dt rest (S idx) rankings' (genes ++ [gene])
          | Raise e => Raise e
          end
      | Raise e => Raise e
      end
  end.

Definition load (w : World) (self : RankingDatabase) (gs : GeneSignature)
  : M (list string * list string * ndarray) :=
  let* _ := assert (gs_bool gs) "A gene signature must be supplied" in
  let* rankings := np_empty (length (features self)) (gs_len gs) (_dtype self) in
  let* f := connect w (_uri self) in
  let* rows := execute_rankings_query f (RANKINGS_QUERY_format (quoted_csv (gs_genes gs))) in
  let* filled := lift (fill_filtered (_dtype self) rows 0 rankings []) in
  ret (np_array_U (_features self), np_array_U filled.2, filled.1).

(** ** Predicates on rows, signatures and states *)

(** The cache of [genes] holds, for this instance, nothing or the gene
    identifiers of the rows. *)
Definition cache_ok (rows : list (string * list byte)) (self : RankingDatabase)
    (st : state) : Prop :=
  ∀ cached, genes_cache st !! self_id self = Some cached → cached = gene_ids rows.

(** A blob that cannot be decoded, or whose decoded length is neither the
    number of rows of the matrix nor one. *)
Definition malformed (dt : dtype) (rows : nat) (blob : list byte) : Prop :=
  (length blob mod itemsize dt ≠ 0)%nat
  ∨ ((length blob / itemsize dt)%nat ≠ rows ∧ (length blob / itemsize dt)%nat ≠ 1%nat).

(** The values of a signed dtype. *)
Definition in_range (dt : dtype) (z : Z) : Prop :=
  - 2 ^ (bits dt - 1) ≤ z < 2 ^ (bits dt - 1).

(** No identifier of the list holds a NUL character. *)
Definition nul_free (ids : list string) : Prop := ∀ id, id ∈ ids → has_nul id = false.

(** [st'] is [st] with more events logged: the cache of [genes], the
    identities and the memory are the same. *)
Definition extends (st st' : state) : Prop :=
  genes_cache st' = genes_cache st
  ∧ next_id st' = next_id st
  ∧ uninit st' = uninit st
  ∧ ∃ more, events st' = events st ++ more.

(** A computation that changes nothing of the state but its log. *)
Definition logs_only {A} (m : M A) : Prop := ∀ st, extends st (m st).2.

(** ** Worlds to run the code on *)

Definition b (n : N) : byte := default x00 (Byte.of_N n).

(** A store with both tables. *)
Definition store (ms : list (string * Z)) (rs : list (string * list byte)) : file :=
  Store {| motifs := Some ms; rankings := Some rs |}.

(** A world described at one path and one URI: the path exists and is
    absolute, the URI opens [f], and nothing else can be opened. *)
Definition world_at (path uri : string) (f : file) : World := {|
  path_exists p := bool_decide (p = path);
  abspath p := p;
  sqlite_open u :=
    if decide (u = uri) then Ok f
    else Raise (OperationalError "unable to open database file")
|}.

(** A world with nothing in it. *)
Definition no_world : World := {|
  path_exists p := false;
  abspath p := p;
  sqlite_open u := Raise (OperationalError "unable to open database file")
|}.

Definition st0 : state := State ∅ 0 (λ _ _, -1) [].

Definition instance (uri fname : string) (fs : list string) (n : Z) : RankingDatabase := {|
  self_id := 0; _fname := fname; _name := "db"; _nomenclature := "HGNC";
  _uri := uri; _features := fs; _gene_count := n; _dtype := derive_dtype n
|}.

Definition demo_motifs : list (string * Z) := [("f2", 1); ("f1", 0); ("f3", 2)].

Definition demo_rows : list (string * list byte) :=
  [("g3", [b 2; b 0; b 0; b 0; b 1; b 0]);
   ("g1", [b 0; b 0; b 3; b 0; b 2; b 0]);
   ("g4", [b 3; b 0; b 1; b 0; b 0; b 0]);
   ("g2", [b 1; b 0; b 2; b 0; b 255; b 255])].

Definition demo_uri : string := "file:/db/demo.db?mode=ro".

Definition demo_world : World :=
  world_at "/db/demo.db" demo_uri (store demo_motifs demo_rows).

Definition demo_self : RankingDatabase :=
  instance demo_uri "/db/demo.db" ["f1"; "f2"; "f3"] 4.

(** A store whose only blob holds one rank although there are two
    features. *)
Definition short_rows : list (string * list byte) := [("g1", [b 5; b 0])].

Definition short_uri : string := "file:/db/short.db?mode=ro".

Definition short_world : World :=
  world_at "/db/short.db" short_uri (store [("f1", 0); ("f2", 1)] short_rows).

Definition short_self : RankingDatabase :=
  instance short_uri "/db/short.db" ["f1"; "f2"] 1.

(** A store with a blob of three bytes. *)
Definition odd_rows : list (string * list byte) :=
  [("g1", [b 1; b 0; b 2; b 0]); ("g2", [b 5; b 0; b 1])].

Definition odd_uri : string := "file:/db/odd.db?mode=ro".

Definition odd_world : World :=
  world_at "/db/odd.db" odd_uri (store [("f1", 0); ("f2", 1)] odd_rows).

Definition odd_self : RankingDatabase := instance odd_uri "/db/odd.db" ["f1"; "f2"] 2.

(** A store with no genes. *)
Definition empty_uri : string := "file:/db/empty.db?mode=ro".

Definition empty_world : World :=
  world_at "/db/empty.db" empty_uri (store [("f1", 0)] []).

Definition empty_self : RankingDatabase := instance empty_uri "/db/empty.db" ["f1"] 0.

(** A store where one identifier has three rows. *)
Definition thrice_rows : list (string * list byte) :=
  [("g1", [b 1; b 0]); ("g1", [b 2; b 0]); ("g1", [b 3; b 0])].

Definition thrice_uri : string := "file:/db/thrice.db?mode=ro".

Definition thrice_world : World :=
  world_at "/db/thrice.db" thrice_uri (store [("f1", 0)] thrice_rows).

Definition thrice_self : RankingDatabase := instance thrice_uri "/db/thrice.db" ["f1"] 3.

(** A file that exists and is no database. *)
Definition notes_uri : string := "file:/db/notes.txt?mode=ro".

Definition notes_world : World := world_at "/db/notes.txt" notes_uri NotADatabase.

(** A store whose motif and gene names end in a NUL character. *)
Definition f1_nul : string := String "f" (String "1" (String nul EmptyString)).

Definition g1_nul : string := String "g" (String "1" (String nul EmptyString)).

Definition nul_rows : list (string * list byte) := [(g1_nul, [b 7; b 0])].

Definition nul_uri : string := "file:/db/nul.db?mode=ro".

Definition nul_world : World :=
  world_at "/db/nul.db" nul_uri (store [(f1_nul, 0)] nul_rows).

Definition nul_self : RankingDatabase := instance nul_uri "/db/nul.db" [f1_nul] 1.

(** ** Strings and the reader of the [IN] list *)

Lemma app_cons (c : ascii) (s t : string) : String c s +:+ t = String c (s +:+ t).
Proof. reflexivity. Qed.

Lemma app_empty_l (s : string) : "" +:+ s = s.
Proof. reflexivity. Qed.

Lemma app_empty_r (s : string) : s +:+ "" = s.
Proof. induction s as [|c s IH]; [done|]. by rewrite app_cons, IH. Qed.

Lemma app_assoc' (s t u : string) : (s +:+ t) +:+ u = s +:+ (t +:+ u).
Proof. induction s as [|c s IH]; [done|]. by rewrite !app_cons, IH. Qed.

Lemma strip_prefix_app (p s : string) : strip_prefix p (p +:+ s) = Some s.
Proof.
  induction p as [|c p IH]; [done|].
  rewrite app_cons. simpl. by rewrite decide_True.
Qed.

(** The steps of the reader. *)
Lemma lex_open (st : lexer) (done : list string) (rest : string) :
  st = AtStart ∨ st = AfterComma →
  lex_in_list st done (String quote_char rest) = lex_in_list (InLiteral "") done rest.
Proof. by intros [-> | ->]. Qed.

Lemma lex_literal_quote (cur : string) (done : list string) (rest : string) :
  lex_in_list (InLiteral cur) done (String quote_char rest)
  = lex_in_list (QuoteSeen cur) done rest.
Proof. done. Qed.

Lemma lex_literal_char (c : ascii) (cur : string) (done : list string) (rest : string) :
  c ≠ quote_char →
  lex_in_list (InLiteral cur) done (String c rest)
  = lex_in_list (InLiteral (cur +:+ String c "")) done rest.
Proof. intros Hc. cbn [lex_in_list]. by rewrite decide_False. Qed.

Lemma lex_doubled_quote (cur : string) (done : list string) (rest : string) :
  lex_in_list (QuoteSeen cur) done (String quote_char rest)
  = lex_in_list (InLiteral (cur +:+ String quote_char "")) done rest.
Proof. done. Qed.

Lemma lex_comma (cur : string) (done : list string) (rest : string) :
  lex_in_list (QuoteSeen cur) done (String "," rest)
  = lex_in_list AfterComma (done ++ [cur]) rest.
Proof. done. Qed.

Lemma lex_close (cur : string) (done : list string) (rest : string) :
  lex_in_list (QuoteSeen cur) done (String ")" rest) = Some (done ++ [cur], rest).
Proof. done. Qed.

(** Inside a literal, the escaped text of [value] followed by a quote
    brings the reader to the end of the literal, with [value] read. *)
Lemma lex_escaped (value cur : string) (done : list string) (rest : string) :
  lex_in_list (InLiteral cur) done
    (str_replace quote_char "''" value +:+ String quote_char rest)
  = lex_in_list (QuoteSeen (cur +:+ value)) done rest.
Proof.
  revert cur. induction value as [|c value IH]; intros cur.
  - by rewrite app_empty_r.
  - cbn [str_replace]. destruct (decide (c = quote_char)) as [->|Hc].
    + rewrite !app_cons, app_empty_l.
      by rewrite lex_literal_quote, lex_doubled_quote, IH, app_assoc'.
    + by rewrite app_cons, lex_literal_char, IH, app_assoc'.
Qed.

Lemma lex_quote (value : string) (st : lexer) (done : list string) (rest : string) :
  st = AtStart ∨ st = AfterComma →
  lex_in_list st done (quote value +:+ rest)
  = lex_in_list (QuoteSeen value) done rest.
Proof.
  intros Hst. unfold quote.
  rewrite !app_assoc', !app_cons, !app_empty_l.
  by rewrite lex_open, lex_escaped.
Qed.

Lemma quoted_csv_cons (v : string) (vs : list string) :
  quoted_csv (v :: vs)
  = quote v +:+ match vs with [] => "" | _ => "," +:+ quoted_csv vs end.
Proof.
  unfold quoted_csv. destruct vs as [|w vs]; simpl; [by rewrite app_empty_r|done].
Qed.

Lemma lex_quoted_csv (values : list string) (st : lexer) (done : list string)
    (tail : string) :
  st = AfterComma ∧ values ≠ [] ∨ st = AtStart →
  lex_in_list st done (quoted_csv values +:+ ")" +:+ tail)
  = Some (done ++ values, tail).
Proof.
  revert st done. induction values as [|v vs IH]; intros st done Hst.
  - destruct Hst as [[_ ?]| ->]; [done|].
    rewrite app_nil_r. reflexivity.
  - rewrite quoted_csv_cons, app_assoc', lex_quote
      by (destruct Hst as [[-> _]| ->]; [by right|by left]).
    destruct vs as [|w vs].
    + by rewrite app_empty_l, app_cons, lex_close.
    + rewrite app_assoc', app_cons, app_empty_l, lex_comma.
      rewrite IH by (left; done). by rewrite <-(assoc_L (++)).
Qed.

Example quoted_csv_embedded_quote :
  quoted_csv ["O'Brien1"; "g2"] = "'O''Brien1','g2'".
Proof. reflexivity. Qed.

Example lex_in_list_escaped :
  lex_in_list AtStart [] "'O''Brien1','g2') ORDER BY geneID;"
  = Some (["O'Brien1"; "g2"], " ORDER BY geneID;").
Proof. reflexivity. Qed.

(** A quote that was not doubled ends the literal, and the reader refuses
    what follows. *)
Example lex_in_list_unescaped :
  lex_in_list AtStart [] "'O'Brien1','g2') ORDER BY geneID;" = None.
Proof. reflexivity. Qed.

(** ** NUL characters *)

Lemma has_nul_app (s t : string) : has_nul (s +:+ t) = has_nul s || has_nul t.
Proof.
  induction s as [|c s IH]; [done|].
  rewrite app_cons. cbn [has_nul]. by rewrite IH, orb_assoc.
Qed.

Lemma has_nul_str_replace (value : string) :
  has_nul (str_replace quote_char "''" value) = has_nul value.
Proof.
  induction value as [|c value IH]; [done|].
  cbn [str_replace has_nul]. destruct (decide (c = quote_char)) as [->|Hc].
  - rewrite has_nul_app, IH.
    assert (has_nul "''" = false) as -> by reflexivity.
    assert (bool_decide (quote_char = nul) = false) as -> by reflexivity.
    done.
  - cbn [has_nul]. by rewrite IH.
Qed.

Lemma has_nul_quote (value : string) : has_nul (quote value) = has_nul value.
Proof.
  unfold quote. rewrite !has_nul_app, has_nul_str_replace.
  assert (has_nul "'" = false) as -> by reflexivity.
  by rewrite orb_false_r.
Qed.

Lemma has_nul_quoted_csv (values : list string) :
  has_nul (quoted_csv values) = false ↔ nul_free values.
Proof.
  unfold nul_free. induction values as [|v vs IH].
  - split; [|done]. intros _ id Hid. by apply elem_of_nil in Hid.
  - rewrite quoted_csv_cons, has_nul_app, has_nul_quote, orb_false_iff.
    assert (has_nul match vs with [] => "" | _ :: _ => "," +:+ quoted_csv vs end
            = has_nul (quoted_csv vs)) as ->.
    { destruct vs; [done|]. by rewrite has_nul_app. }
    rewrite IH. split.
    + intros [Hv Hvs] id [->|Hid]%elem_of_cons; auto.
    + intros Hall. split; [apply Hall; left|]. intros id Hid. apply Hall. by right.
Qed.

Lemma has_nul_RANKINGS_QUERY_format (arg : string) :
  has_nul (RANKINGS_QUERY_format arg) = has_nul arg.
Proof.
  unfold RANKINGS_QUERY_format. rewrite !has_nul_app.
  assert (has_nul RANKINGS_HEAD = false) as -> by reflexivity.
  assert (has_nul RANKINGS_TAIL = false) as -> by reflexivity.
  assert (has_nul ")" = false) as -> by reflexivity.
  by rewrite !orb_false_r.
Qed.

Lemma rstrip_nul_id (s : string) : has_nul s = false → rstrip_nul s = s.
Proof.
  induction s as [|c s IH]; [done|].
  cbn [has_nul rstrip_nul]. intros [Hc Hs]%orb_false_iff.
  apply bool_decide_eq_false in Hc. rewrite (IH Hs).
  destruct s; [by rewrite decide_False|done].
Qed.

Lemma np_array_U_id (values : list string) :
  nul_free values → np_array_U values = values.
Proof.
  unfold np_array_U, nul_free. induction values as [|v vs IH]; intros Hall; [done|].
  cbn. rewrite rstrip_nul_id by (apply Hall; left).
  f_equal. apply IH. intros id Hid. apply Hall. by right.
Qed.


(** The order of strings, one character at a time. *)
Lemma string_le_empty (s : string) : String.le "" s.
Proof. by destruct s. Qed.

Lemma string_le_empty_inv (s : string) : String.le s "" → s = "".
Proof. by destruct s. Qed.

Lemma string_le_cons (c1 c2 : ascii) (s1 s2 : string) :
  String.le (String c1 s1) (String c2 s2)
  ↔ Ascii.compare c1 c2 = Lt ∨ (c1 = c2 ∧ String.le s1 s2).
Proof.
  unfold String.le, String.leb. cbn [String.compare].
  destruct (Ascii.compare c1 c2) eqn:Hc.
  - apply Ascii.compare_eq_iff in Hc as ->. split; [by right|].
    by intros [?|[_ ?]].
  - split; [by left|done].
  - split; [done|]. intros [?|[-> _]]; [done|].
    unfold Ascii.compare in Hc. by rewrite N.compare_refl in Hc.
Qed.

Lemma ascii_lt_not_nul (c1 c2 : ascii) : Ascii.compare c1 c2 = Lt → c2 ≠ nul.
Proof.
  unfold Ascii.compare. intros Hlt%N.compare_lt_iff ->.
  assert (N_of_ascii nul = 0%N) as Hz by reflexivity. rewrite Hz in Hlt.
  by apply N.nlt_0_r in Hlt.
Qed.

Lemma rstrip_nul_cons (c : ascii) (s : string) :
  rstrip_nul (String c s)
  = if decide (c = nul ∧ rstrip_nul s = "") then "" else String c (rstrip_nul s).
Proof.
  cbn [rstrip_nul]. destruct (rstrip_nul s) as [|c' s'].
  - destruct (decide (c = nul)) as [->|Hc].
    + by rewrite decide_True.
    + rewrite decide_False; [done|]. by intros [? _].
  - rewrite decide_False; [done|]. by intros [_ ?].
Qed.

(** Dropping trailing NUL characters keeps the order of strings. *)
Lemma rstrip_nul_mono (s t : string) :
  String.le s t → String.le (rstrip_nul s) (rstrip_nul t).
Proof.
  revert t. induction s as [|c1 s IH]; intros t Hle.
  - apply string_le_empty.
  - destruct t as [|c2 t]; [by apply string_le_empty_inv in Hle|].
    apply string_le_cons in Hle. rewrite !rstrip_nul_cons.
    destruct (decide (c1 = nul ∧ rstrip_nul s = "")) as [_|Hs];
      [apply string_le_empty|].
    destruct Hle as [Hlt|[-> Hle]].
    + rewrite decide_False.
      * apply string_le_cons. by left.
      * intros [? _]. by apply (ascii_lt_not_nul c1 c2).
    + specialize (IH t Hle).
      destruct (decide (c2 = nul ∧ rstrip_nul t = "")) as [[-> Ht]|_].
      * rewrite Ht in IH. apply string_le_empty_inv in IH. by destruct Hs.
      * apply string_le_cons. by right.
Qed.

(** ** [ORDER BY] *)

Section order_by.
Context {A : Type} (R : relation A) `{!RelDecision R}.

Lemma insert_by_perm (x : A) (l : list A) : insert_by R x l ≡ₚ x :: l.
Proof.
  induction l as [|y l IH]; [done|].
  cbn [insert_by]. destruct (decide (R x y)); [done|].
  by rewrite IH, Permutation_swap.
Qed.

Lemma order_by_perm (l : list A) : order_by R l ≡ₚ l.
Proof.
  induction l as [|x l IH]; [done|].
  cbn. by rewrite insert_by_perm, IH.
Qed.

Lemma insert_by_sorted `{!Total R} (x : A) (l : list A) :
  Sorted R l → Sorted R (insert_by R x l).
Proof.
  induction 1 as [|y l Hl IH Hhd].
  - by repeat constructor.
  - cbn [insert_by]. destruct (decide (R x y)) as [Hxy|Hxy].
    + by repeat constructor.
    + constructor; [done|].
      assert (R y x) as Hyx by (by destruct (total R x y)).
      destruct Hhd as [|z l Hyz]; cbn [insert_by]; [by constructor|].
      destruct (decide (R x z)); by constructor.
Qed.

Lemma order_by_sorted `{!Total R} (l : list A) : Sorted R (order_by R l).
Proof.
  induction l as [|x l IH]; [constructor|]. by apply insert_by_sorted.
Qed.


End order_by.

#[global] Instance by_geneID_total : Total by_geneID.
Proof. intros r1 r2. unfold by_geneID. apply (total String.le). Qed.

#[global] Instance by_geneID_trans : Transitive by_geneID.
Proof. intros r1 r2 r3. unfold by_geneID. apply (transitivity (R:=String.le)). Qed.

#[global] Instance by_idx_total : Total by_idx.
Proof. intros m1 m2. unfold by_idx. apply (total Z.le). Qed.

Lemma order_by_geneID_perm (rows : list (string * list byte)) :
  order_by_geneID rows ≡ₚ rows.
Proof. apply order_by_perm. Qed.

Lemma order_by_geneID_sorted (rows : list (string * list byte)) :
  StronglySorted String.le (order_by_geneID rows).*1.
Proof.
  apply (StronglySorted_fmap fst by_geneID String.le); [done|].
  apply Sorted_StronglySorted; [apply _|]. apply order_by_sorted, _.
Qed.


Lemma elem_of_rankings_in (rows : list (string * list byte)) (ids : list string)
    (r : string * list byte) :
  r ∈ rankings_in rows ids ↔ r.1 ∈ ids ∧ r ∈ rows.
Proof.
  unfold rankings_in. rewrite order_by_geneID_perm.
  by rewrite list_elem_of_filter.
Qed.

Lemma filter_all {A} (P : A → Prop) `{!∀ x, Decision (P x)} (l : list A) :
  (∀ x, x ∈ l → P x) → filter P l = l.
Proof.
  induction l as [|x l IH]; intros Hall; [done|].
  rewrite filter_cons_True by (apply Hall; left).
  f_equal. apply IH. intros y Hy. apply Hall. by right.
Qed.

Lemma filter_none {A} (P : A → Prop) `{!∀ x, Decision (P x)} (l : list A) :
  (∀ x, x ∈ l → ¬ P x) → filter P l = [].
Proof.
  induction l as [|x l IH]; intros Hnone; [done|].
  rewrite filter_cons_False by (apply Hnone; left).
  apply IH. intros y Hy. apply Hnone. by right.
Qed.

Lemma rankings_in_all (rows : list (string * list byte)) (ids : list string) :
  (∀ r, r ∈ rows → r.1 ∈ ids) → rankings_in rows ids = all_rankings rows.
Proof.
  intros Hall. unfold rankings_in, all_rankings. by rewrite filter_all.
Qed.

Lemma length_all_rankings (rows : list (string * list byte)) :
  length (all_rankings rows) = length (gene_ids rows).
Proof. unfold gene_ids, all_rankings. by rewrite length_fmap. Qed.

Lemma length_gene_ids (rows : list (string * list byte)) :
  length (gene_ids rows) = length rows.
Proof. unfold gene_ids. by rewrite length_fmap, order_by_geneID_perm. Qed.

(** The identifiers of the rows have one ascending arrangement. *)
Lemma sorted_gene_ids_unique (rows : list (string * list byte)) (l : list string) :
  Sorted String.le l → l ≡ₚ rows.*1 → l = gene_ids rows.
Proof.
  intros Hsorted Hperm. apply (Sorted_unique String.le); [done| |].
  - apply StronglySorted_Sorted, order_by_geneID_sorted.
  - rewrite Hperm. unfold gene_ids. by rewrite order_by_geneID_perm.
Qed.

(** ** Decoding and assignment to a column *)

Lemma length_decode_items (dt : dtype) (count : nat) (buf : list byte) :
  length (decode_items dt count buf) = count.
Proof. revert buf. induction count as [|c IH]; intros buf; simpl; [done|]. by rewrite IH. Qed.

Lemma itemsize_pos (dt : dtype) : (itemsize dt ≠ 0)%nat.
Proof. by destruct dt. Qed.

Lemma frombuffer_ok (buf : list byte) (dt : dtype) (vals : list Z) :
  frombuffer buf dt = Ok vals →
  (length buf mod itemsize dt = 0)%nat
  ∧ vals = decode_items dt (length buf / itemsize dt) buf
  ∧ length vals = (length buf / itemsize dt)%nat.
Proof.
  unfold frombuffer. destruct (_ =? _)%nat eqn:Hm; [|done].
  apply Nat.eqb_eq in Hm. intros [= <-]. by rewrite length_decode_items.
Qed.

Lemma frombuffer_exact (buf : list byte) (dt : dtype) (n : nat) :
  length buf = (n * itemsize dt)%nat →
  frombuffer buf dt = Ok (decode_items dt n buf).
Proof.
  intros Hlen. unfold frombuffer. rewrite Hlen.
  rewrite Nat.Div0.mod_mul, Nat.div_mul by apply itemsize_pos. done.
Qed.

Lemma frombuffer_raise (buf : list byte) (dt : dtype) :
  (length buf mod itemsize dt ≠ 0)%nat →
  frombuffer buf dt = Raise (ValueError "buffer size must be a multiple of element size").
Proof.
  intros Hm. unfold frombuffer. by apply Nat.eqb_neq in Hm as ->.
Qed.

Lemma broadcast_to_some (rows : nat) (v col : list Z) :
  broadcast_to rows v = Some col →
  (length v = rows ∧ col = v)
  ∨ (length v = 1%nat ∧ rows ≠ 1%nat ∧ col = replicate rows (default 0 (head v))).
Proof.
  unfold broadcast_to. destruct (_ =? _)%nat eqn:Hl.
  - apply Nat.eqb_eq in Hl. intros [= <-]. by left.
  - apply Nat.eqb_neq in Hl. destruct v as [|x [|y v]]; [done| |done].
    intros [= <-]. right. split_and!; [done| |done]. simpl in Hl. lia.
Qed.

Lemma broadcast_to_none (rows : nat) (v : list Z) :
  broadcast_to rows v = None ↔ length v ≠ rows ∧ length v ≠ 1%nat.
Proof.
  unfold broadcast_to. destruct (_ =? _)%nat eqn:Hl.
  - apply Nat.eqb_eq in Hl. split; [done|]. by intros [? _].
  - apply Nat.eqb_neq in Hl. destruct v as [|x [|y v]]; simpl in *.
    + split; [|done]. intros _. split; [done|lia].
    + split; [done|]. by intros [_ ?].
    + split; [|done]. intros _. split; [done|lia].
Qed.

Lemma broadcast_to_exact (v : list Z) : broadcast_to (length v) v = Some v.
Proof. unfold broadcast_to. by rewrite Nat.eqb_refl. Qed.

Lemma set_column_ok (a a' : ndarray) (idx : nat) (v : list Z) :
  set_column a idx v = Ok a' →
  (idx < (shape a).2)%nat
  ∧ ∃ col, broadcast_to (shape a).1 v = Some col
      ∧ a' = NdArray (shape a) (<[idx := col]> (columns a)).
Proof.
  unfold set_column. destruct (_ <? _)%nat eqn:Hi; [|done].
  apply Nat.ltb_lt in Hi. destruct (broadcast_to _ _) as [col|]; [|done].
  intros [= <-]. eauto.
Qed.

Lemma set_column_raise (a : ndarray) (idx : nat) (v : list Z) (e : exn) :
  set_column a idx v = Raise e →
  (idx < (shape a).2)%nat →
  ∃ msg, e = ValueError msg.
Proof.
  unfold set_column. intros He Hi. apply Nat.ltb_lt in Hi. rewrite Hi in He.
  destruct (broadcast_to _ _); simplify_eq. eauto.
Qed.

Lemma shape_empty_array (mem : nat → nat → Z) (rows cols : nat) :
  shape (empty_array mem rows cols) = (rows, cols).
Proof. done. Qed.

Lemma length_columns_empty_array (mem : nat → nat → Z) (rows cols : nat) :
  length (columns (empty_array mem rows cols)) = cols.
Proof. unfold empty_array. simpl. by rewrite length_fmap, length_seq. Qed.

(** ** The loops of the loaders *)

Lemma fill_filtered_full (dt : dtype) (rows : list (string * list byte)) (idx : nat)
    (m : ndarray) (genes : list string) :
  fill_filtered dt rows idx m genes
  = match fill_full dt rows idx m with
    | Ok m' => Ok (m', genes ++ rows.*1)
    | Raise e => Raise e
    end.
Proof.
  revert idx m genes. induction rows as [|[gene blob] rows IH]; intros idx m genes.
  - simpl. by rewrite app_nil_r.
  - simpl. destruct (frombuffer blob dt) as [v|e]; [|done].
    destruct (set_column m idx v) as [m1|e]; [|done].
    rewrite IH. by rewrite <-(assoc_L (++)).
Qed.

(** A run of the loop that ends well has written, for every row, the
    broadcast of its decoded blob to the column of its position, and has
    left every other column as it was. *)
Lemma fill_full_ok (dt : dtype) (rows : list (string * list byte)) (idx : nat)
    (m m' : ndarray) :
  length (columns m) = (shape m).2 →
  fill_full dt rows idx m = Ok m' →
  shape m' = shape m
  ∧ length (columns m') = length (columns m)
  ∧ (rows = [] ∨ (idx + length rows ≤ (shape m).2)%nat)
  ∧ (∀ i gene blob, rows !! i = Some (gene, blob) →
       ∃ vals col, frombuffer blob dt = Ok vals
         ∧ broadcast_to (shape m).1 vals = Some col
         ∧ columns m' !! (idx + i)%nat = Some col)
  ∧ (∀ j, (j < idx ∨ idx + length rows ≤ j)%nat → columns m' !! j = columns m !! j).
Proof.
  revert idx m. induction rows as [|[gene blob] rows IH]; intros idx m Hwf Hfill.
  - simpl in Hfill. simplify_eq. split_and!; auto. intros i ?? Hi. done.
  - simpl in Hfill. destruct (frombuffer blob dt) as [v|e] eqn:Hv; [|done].
    destruct (set_column m idx v) as [m1|e] eqn:Hset; [|done].
    apply set_column_ok in Hset as (Hidx & col & Hcol & ->).
    apply IH in Hfill as (Hshape & Hlen & Hbound & Hcols & Hrest);
      [|by simpl; rewrite length_insert].
    simpl in *. rewrite length_insert in Hlen.
    split_and!; [done|done| | |].
    + right. destruct Hbound as [-> | ?]; simpl; lia.
    + intros [|i] gene' blob' Hi; simplify_eq/=.
      * exists v, col. split_and!; [done..|].
        rewrite Nat.add_0_r, Hrest by lia.
        apply list_lookup_insert_eq. lia.
      * destruct (Hcols i gene' blob' Hi) as (vals & col' & ? & ? & Hc).
        exists vals, col'. split_and!; [done..|].
        by replace (idx + S i)%nat with (S (idx + i)) by lia.
    + intros j Hj. rewrite Hrest by lia.
      apply list_lookup_insert_ne. lia.
Qed.

(** With room for every row, the loop can only fail with a [ValueError]. *)
Lemma fill_full_raise (dt : dtype) (rows : list (string * list byte)) (idx : nat)
    (m : ndarray) (e : exn) :
  (idx + length rows ≤ (shape m).2)%nat →
  fill_full dt rows idx m = Raise e →
  ∃ msg, e = ValueError msg.
Proof.
  revert idx m. induction rows as [|[gene blob] rows IH]; intros idx m Hroom Hfill.
  - done.
  - simpl in *. unfold frombuffer in Hfill.
    destruct (_ =? _)%nat; [|simplify_eq; eauto].
    destruct (set_column m idx _) as [m1|e1] eqn:Hset.
    + apply set_column_ok in Hset as (_ & col & _ & ->).
      apply IH in Hfill; [done|]. simpl. lia.
    + simplify_eq. eapply set_column_raise; [done|]. lia.
Qed.

Lemma fill_full_malformed (dt : dtype) (rows : list (string * list byte)) (idx : nat)
    (m : ndarray) (gene : string) (blob : list byte) :
  (gene, blob) ∈ rows →
  malformed dt (shape m).1 blob →
  ∃ e, fill_full dt rows idx m = Raise e.
Proof.
  revert idx m. induction rows as [|[gene' blob'] rows IH]; intros idx m Hin Hbad.
  - by apply elem_of_nil in Hin.
  - simpl. destruct (frombuffer blob' dt) as [v|e] eqn:Hv; [|eauto].
    destruct (set_column m idx v) as [m1|e] eqn:Hset; [|eauto].
    apply set_column_ok in Hset as (_ & col & Hcol & ->).
    apply elem_of_cons in Hin as [[= <- <-]|Hin].
    + exfalso. apply frombuffer_ok in Hv as (Hmod & _ & Hlen).
      destruct Hbad as [?|[? ?]]; [done|].
      assert (broadcast_to (shape m).1 v = None) as Hnone;
        [apply broadcast_to_none; lia|congruence].
    + by apply IH.
Qed.

(** Blobs of one rank per row of the matrix, and room for every row: the
    loop ends well. *)
Lemma fill_full_exact (dt : dtype) (rows : list (string * list byte)) (idx : nat)
    (m : ndarray) :
  (∀ gene blob, (gene, blob) ∈ rows →
     length blob = ((shape m).1 * itemsize dt)%nat) →
  (idx + length rows ≤ (shape m).2)%nat →
  ∃ m', fill_full dt rows idx m = Ok m'.
Proof.
  revert idx m. induction rows as [|[gene blob] rows IH]; intros idx m Hall Hroom.
  - eauto.
  - simpl in *. rewrite (frombuffer_exact blob dt (shape m).1)
      by (eapply Hall; left).
    unfold set_column. assert ((idx <? (shape m).2)%nat = true) as ->
      by (apply Nat.ltb_lt; lia).
    pose proof (broadcast_to_exact (decode_items dt (shape m).1 blob)) as Hb.
    rewrite length_decode_items in Hb. rewrite Hb.
    apply IH; simpl; [|lia]. intros g bl Hin. eapply Hall. by right.
Qed.

(** The outcome of the loop depends on the matrix through its shape and,
    when the rows fill it, through nothing else. *)
Lemma fill_full_same_shape (dt : dtype) (rows : list (string * list byte)) (idx : nat)
    (m1 m2 : ndarray) :
  shape m1 = shape m2 →
  match fill_full dt rows idx m1, fill_full dt rows idx m2 with
  | Ok _, Ok _ => True
  | Raise e1, Raise e2 => e1 = e2
  | _, _ => False
  end.
Proof.
  revert idx m1 m2. induction rows as [|[gene blob] rows IH]; intros idx m1 m2 Hshape.
  - done.
  - simpl. destruct (frombuffer blob dt) as [v|e]; [|done].
    unfold set_column. rewrite Hshape.
    destruct (_ <? _)%nat; [|done].
    destruct (broadcast_to _ _) as [col|]; [|done].
    by apply IH.
Qed.

Lemma fill_full_whole (dt : dtype) (rows : list (string * list byte)) (m1 m2 : ndarray) :
  shape m1 = shape m2 →
  length (columns m1) = (shape m1).2 →
  length (columns m2) = (shape m2).2 →
  length rows = (shape m1).2 →
  fill_full dt rows 0 m1 = fill_full dt rows 0 m2.
Proof.
  intros Hshape Hwf1 Hwf2 Hrows.
  pose proof (fill_full_same_shape dt rows 0 m1 m2 Hshape) as Hsame.
  destruct (fill_full dt rows 0 m1) as [a1|e1] eqn:H1;
    destruct (fill_full dt rows 0 m2) as [a2|e2] eqn:H2; try done; [|by subst].
  apply fill_full_ok in H1 as (Hs1 & Hl1 & _ & Hc1 & _); [|done].
  apply fill_full_ok in H2 as (Hs2 & Hl2 & _ & Hc2 & _); [|done].
  destruct a1 as [s1 c1], a2 as [s2 c2]; simpl in *.
  assert (s1 = s2) as -> by congruence. do 2 f_equal.
  apply list_eq. intros i.
  destruct (rows !! i) as [[gene blob]|] eqn:Hi.
  - destruct (Hc1 _ _ _ Hi) as (v1 & col1 & Hv1 & Hb1 & ->).
    destruct (Hc2 _ _ _ Hi) as (v2 & col2 & Hv2 & Hb2 & ->).
    congruence.
  - apply lookup_ge_None in Hi.
    assert ((shape m2).2 = (shape m1).2) by (by rewrite Hshape).
    rewrite !(proj2 (lookup_ge_None _ _)); [done|lia..].
Qed.


(** ** Ranks and their width *)

Lemma le_unsigned_bound (bs : list byte) :
  0 ≤ le_unsigned bs < 256 ^ Z.of_nat (length bs).
Proof.
  induction bs as [|x bs IH].
  - simpl. lia.
  - cbn [le_unsigned length]. rewrite Nat2Z.inj_succ, Z.pow_succ_r by lia.
    pose proof (Byte.to_N_bounded x). lia.
Qed.

Lemma bits_itemsize (dt : dtype) : 256 ^ Z.of_nat (itemsize dt) = 2 ^ bits dt.
Proof. by destruct dt. Qed.

Lemma to_signed_range (dt : dtype) (u : Z) :
  0 ≤ u < 2 ^ bits dt → in_range dt (to_signed (bits dt) u).
Proof.
  unfold in_range, to_signed. intros Hu.
  assert (2 ^ bits dt = 2 * 2 ^ (bits dt - 1)) as Hpow by (by destruct dt).
  destruct (Z.ltb_spec u (2 ^ (bits dt - 1))); lia.
Qed.

Lemma to_signed_small (dt : dtype) (r : Z) :
  0 ≤ r < 2 ^ (bits dt - 1) → to_signed (bits dt) r = r.
Proof.
  unfold to_signed. intros Hr. destruct (Z.ltb_spec r (2 ^ (bits dt - 1))); lia.
Qed.

Lemma decode_items_range (dt : dtype) (count : nat) (buf : list byte) :
  Forall (in_range dt) (decode_items dt count buf).
Proof.
  revert buf. induction count as [|c IH]; intros buf; simpl; constructor; [|done].
  apply to_signed_range. rewrite <-bits_itemsize.
  pose proof (le_unsigned_bound (take (itemsize dt) buf)) as [Hlo Hhi].
  split; [done|]. eapply Z.lt_le_trans; [exact Hhi|].
  apply Z.pow_le_mono_r; [lia|]. rewrite length_take. lia.
Qed.

Lemma broadcast_to_Forall (P : Z → Prop) (rows : nat) (v col : list Z) :
  broadcast_to rows v = Some col → Forall P v → Forall P col.
Proof.
  intros [[_ ->]|(Hlen & _ & ->)]%broadcast_to_some Hv; [done|].
  destruct v as [|x [|y v]]; simplify_eq/=.
  apply Forall_replicate. by apply Forall_inv in Hv.
Qed.


(** ** Computations that only log *)

Lemma extends_refl (st : state) : extends st st.
Proof. split_and!; [done..|]. exists []. by rewrite app_nil_r. Qed.

Lemma extends_trans (st1 st2 st3 : state) :
  extends st1 st2 → extends st2 st3 → extends st1 st3.
Proof.
  intros (Hc1 & Hn1 & Hu1 & more1 & He1) (Hc2 & Hn2 & Hu2 & more2 & He2).
  split_and!; [congruence..|].
  exists (more1 ++ more2). by rewrite He2, He1, <-(assoc_L (++)).
Qed.

Lemma logs_only_ret {A} (a : A) : logs_only (ret a).
Proof. intros st. apply extends_refl. Qed.

Lemma logs_only_raise {A} (e : exn) : logs_only (raise (A:=A) e).
Proof. intros st. apply extends_refl. Qed.

Lemma logs_only_lift {A} (r : result A) : logs_only (lift r).
Proof. intros st. apply extends_refl. Qed.

Lemma logs_only_emit (e : event) : logs_only (emit e).
Proof. intros st. split_and!; [done..|]. by exists [e]. Qed.

Lemma logs_only_np_empty (rows cols : nat) (dt : dtype) :
  logs_only (np_empty rows cols dt).
Proof. intros st. split_and!; [done..|]. by exists [EvAlloc rows cols dt]. Qed.

Lemma logs_only_assert (cond : bool) (msg : string) : logs_only (assert cond msg).
Proof. destruct cond; [apply logs_only_ret|apply logs_only_raise]. Qed.

Lemma logs_only_bind {A B} (m : M A) (k : A → M B) :
  logs_only m → (∀ a, logs_only (k a)) → logs_only (bind m k).
Proof.
  intros Hm Hk st. unfold bind. specialize (Hm st).
  destruct (m st) as [[a|e] st']; [|done].
  eapply extends_trans; [exact Hm|apply Hk].
Qed.

Lemma fill_full_overflow (dt : dtype) (rows : list (string * list byte)) (idx : nat)
    (m : ndarray) :
  (∀ gene blob, (gene, blob) ∈ rows →
     length blob = ((shape m).1 * itemsize dt)%nat) →
  (idx ≤ (shape m).2 < idx + length rows)%nat →
  ∃ msg, fill_full dt rows idx m = Raise (IndexError msg).
Proof.
  revert idx m. induction rows as [|[gene blob] rows IH]; intros idx m Hall Hover.
  - simpl in Hover. lia.
  - simpl in *. rewrite (frombuffer_exact blob dt (shape m).1)
      by (eapply Hall; left).
    unfold set_column. destruct (Nat.ltb_spec idx (shape m).2); [|by eexists].
    pose proof (broadcast_to_exact (decode_items dt (shape m).1 blob)) as Hb.
    rewrite length_decode_items in Hb. rewrite Hb.
    apply IH; simpl; [|lia]. intros g bl Hin. eapply Hall. by right.
Qed.


Lemma logs_only_connect (w : World) (uri : string) : logs_only (connect w uri).
Proof.
  unfold connect. apply logs_only_bind; [apply logs_only_emit|]. intros _.
  apply logs_only_lift.
Qed.

Lemma logs_only_execute_rankings_query (f : file) (sql : string) :
  logs_only (execute_rankings_query f sql).
Proof.
  unfold execute_rankings_query. apply logs_only_bind; [apply logs_only_emit|].
  intros _. destruct (has_nul sql); [apply logs_only_raise|].
  destruct (strip_prefix _ _) as [rest|]; [|apply logs_only_raise].
  destruct (lex_in_list _ _ _) as [[ids tail]|]; [|apply logs_only_raise].
  destruct (decide _); [apply logs_only_lift|apply logs_only_raise].
Qed.

(** ** What the statements and the loaders compute *)

Lemma stored_rankings_ok (w : World) (uri : string) (rows : list (string * list byte)) :
  stored_rankings w uri = Ok rows
  ↔ ∃ f, sqlite_open w uri = Ok f ∧ read_rankings f = Ok rows.
Proof.
  unfold stored_rankings, rbind. split.
  - destruct (sqlite_open w uri) as [f|e]; [|done]. by exists f.
  - by intros (f & -> & ?).
Qed.

(** The statement that [load] makes is accepted when no identifier holds
    a NUL character, and selects the rows of these identifiers; it is
    refused when one does. *)
Lemma execute_rankings_query_quoted (f : file) (values : list string) (st : state) :
  (execute_rankings_query f (RANKINGS_QUERY_format (quoted_csv values)) st).1
  = if has_nul (quoted_csv values)
    then Raise (ProgrammingError "the query contains a null character")
    else select_rankings_in f values.
Proof.
  unfold execute_rankings_query, bind, emit.
  rewrite has_nul_RANKINGS_QUERY_format.
  destruct (has_nul (quoted_csv values)); [done|].
  unfold RANKINGS_QUERY_format. rewrite strip_prefix_app.
  rewrite (lex_quoted_csv values AtStart [] RANKINGS_TAIL) by (by right).
  rewrite app_nil_l, decide_True by done. done.
Qed.

Lemma gs_bool_true (gs : GeneSignature) : gs_bool gs = true ↔ gs ≠ ∅.
Proof.
  unfold gs_bool, gs_len. rewrite negb_true_iff, Nat.eqb_neq.
  rewrite size_empty_iff. by unfold_leibniz.
Qed.

(** The outcome of [load], step by step. *)
Lemma load_result (w : World) (self : RankingDatabase) (gs : GeneSignature)
    (st : state) :
  (load w self gs st).1
  = if gs_bool gs then
      match sqlite_open w (_uri self) with
      | Ok f =>
          if has_nul (quoted_csv (gs_genes gs))
          then Raise (ProgrammingError "the query contains a null character")
          else
            match read_rankings f with
            | Ok rows =>
                match fill_full (_dtype self) (rankings_in rows (gs_genes gs)) 0
                        (empty_array (uninit st) (length (_features self)) (gs_len gs))
                with
                | Ok m =>
                    Ok (np_array_U (_features self),
                        np_array_U (rankings_in rows (gs_genes gs)).*1, m)
                | Raise e => Raise e
                end
            | Raise e => Raise e
            end
      | Raise e => Raise e
      end
    else Raise (AssertionError "A gene signature must be supplied").
Proof.
  unfold load. destruct (gs_bool gs); [|done].
  unfold assert, bind at 1, ret at 1. unfold bind at 1, np_empty.
  unfold bind at 1, connect. unfold bind at 1, emit at 1, lift at 1.
  cbn [genes_cache next_id uninit events].
  destruct (sqlite_open w (_uri self)) as [f|e]; [|done].
  unfold bind at 1.
  pose proof (execute_rankings_query_quoted f (gs_genes gs)) as Hq.
  match goal with |- context [execute_rankings_query f ?q ?s] =>
    specialize (Hq s); destruct (execute_rankings_query f q s) as [[rows|e] s'] end;
    cbn [fst] in Hq.
  - destruct (has_nul (quoted_csv (gs_genes gs))); [done|].
    unfold select_rankings_in, rbind in Hq.
    destruct (read_rankings f) as [rows'|e]; [|done]. simplify_eq.
    unfold bind, lift, features. rewrite fill_filtered_full.
    by destruct (fill_full _ _ _ _).
  - destruct (has_nul (quoted_csv (gs_genes gs))); [by simplify_eq|].
    unfold select_rankings_in, rbind in Hq.
    destruct (read_rankings f) as [rows'|e']; by simplify_eq.
Qed.

Lemma load_refuses_empty (w : World) (self : RankingDatabase) (st : state) :
  load w self ∅ st = (Raise (AssertionError "A gene signature must be supplied"), st).
Proof. done. Qed.

(** Every row that the statement selects has a requested identifier, and
    these hold no NUL character when the statement was accepted. *)
Lemma rankings_in_nul_free (rows : list (string * list byte)) (ids : list string) :
  nul_free ids → nul_free (rankings_in rows ids).*1.
Proof.
  intros Hfree id ([id' blob] & -> & [Hin _]%elem_of_rankings_in)%list_elem_of_fmap.
  by apply Hfree.
Qed.

(** What a returning [load] went through. *)
Lemma load_ok (w : World) (self : RankingDatabase) (rows : list (string * list byte))
    (gs : GeneSignature) (st : state) (fv gv : list string) (m : ndarray) :
  stored_rankings w (_uri self) = Ok rows →
  (load w self gs st).1 = Ok (fv, gv, m) →
  gs ≠ ∅
  ∧ nul_free (gs_genes gs)
  ∧ fv = np_array_U (_features self)
  ∧ gv = (rankings_in rows (gs_genes gs)).*1
  ∧ fill_full (_dtype self) (rankings_in rows (gs_genes gs)) 0
      (empty_array (uninit st) (length (_features self)) (gs_len gs)) = Ok m.
Proof.
  intros (f & Hf & Hrows)%stored_rankings_ok. rewrite load_result, Hf, Hrows.
  destruct (gs_bool gs) eqn:Hgs; [|done]. apply gs_bool_true in Hgs.
  destruct (has_nul (quoted_csv (gs_genes gs))) eqn:Hnul; [done|].
  apply has_nul_quoted_csv in Hnul.
  destruct (fill_full _ _ _ _) as [m'|e]; [|done]. intros [= <- <- <-].
  split_and!; [done..| |done].
  by rewrite np_array_U_id by (by apply rankings_in_nul_free).
Qed.

(** The outcome of [load] on a signature that SQLite accepts. *)
Lemma load_run (w : World) (self : RankingDatabase) (rows : list (string * list byte))
    (gs : GeneSignature) (st : state) :
  stored_rankings w (_uri self) = Ok rows →
  gs ≠ ∅ →
  nul_free (gs_genes gs) →
  (load w self gs st).1
  = match fill_full (_dtype self) (rankings_in rows (gs_genes gs)) 0
            (empty_array (uninit st) (length (_features self)) (gs_len gs)) with
    | Ok m => Ok (np_array_U (_features self), (rankings_in rows (gs_genes gs)).*1, m)
    | Raise e => Raise e
    end.
Proof.
  intros (f & Hf & Hrows)%stored_rankings_ok Hgs%gs_bool_true Hfree.
  rewrite load_result, Hgs, Hf, Hrows.
  rewrite (proj2 (has_nul_quoted_csv _) Hfree).
  by rewrite (np_array_U_id (rankings_in rows (gs_genes gs)).*1)
    by (by apply rankings_in_nul_free).
Qed.

Lemma genes_result (w : World) (self : RankingDatabase) (rows : list (string * list byte))
    (st : state) :
  stored_rankings w (_uri self) = Ok rows →
  cache_ok rows self st →
  ∃ st', genes w self st = (Ok (gene_ids rows), st')
    ∧ uninit st' = uninit st
    ∧ genes_cache st' !! self_id self = Some (gene_ids rows).
Proof.
  intros (f & Hf & Hrows)%stored_rankings_ok Hok. unfold genes.
  destruct (genes_cache st !! self_id self) as [cached|] eqn:Hc.
  - pose proof (Hok _ Hc) as ->. by exists st.
  - unfold connect, select_gene_ids, rbind, emit, memoize_store, ret, lift, bind.
    cbn [genes_cache next_id uninit events]. rewrite Hf, Hrows.
    eexists. split_and!; [done..|]. apply lookup_insert_eq.
Qed.

(** The outcome of [load_full] and the state it leaves. *)
Lemma load_full_run (w : World) (self : RankingDatabase)
    (rows : list (string * list byte)) (st : state) :
  stored_rankings w (_uri self) = Ok rows →
  cache_ok rows self st →
  ∃ st', load_full w self st
         = (match fill_full (_dtype self) (all_rankings rows) 0
                    (empty_array (uninit st) (length (_features self))
                       (length (gene_ids rows))) with
            | Ok m => Ok (np_array_U (_features self), np_array_U (gene_ids rows), m)
            | Raise e => Raise e
            end, st')
    ∧ genes_cache st' !! self_id self = Some (gene_ids rows)
    ∧ uninit st' = uninit st.
Proof.
  intros Hstored Hok.
  destruct (genes_result w self rows st Hstored Hok) as (st1 & Hg & Hmem & Hcache).
  apply stored_rankings_ok in Hstored as (f & Hf & Hrows).
  unfold load_full. unfold bind at 1. rewrite Hg.
  unfold bind at 1, np_empty. unfold bind at 1, connect.
  unfold bind at 1, emit at 1, lift at 1.
  cbn [genes_cache next_id uninit events]. rewrite Hf.
  unfold bind at 1, emit at 1. cbn [genes_cache next_id uninit events].
  unfold bind at 1, lift at 1, select_all_rankings, rbind. rewrite Hrows.
  unfold bind at 1, lift, features. rewrite Hmem.
  destruct (fill_full _ _ _ _) as [m|e].
  - unfold bind, genes. cbn [genes_cache next_id uninit events]. rewrite Hcache.
    eexists. split; [reflexivity|]. by split.
  - eexists. split; [reflexivity|]. by split.
Qed.

Lemma load_full_result (w : World) (self : RankingDatabase)
    (rows : list (string * list byte)) (st : state) :
  stored_rankings w (_uri self) = Ok rows →
  cache_ok rows self st →
  (load_full w self st).1
  = match fill_full (_dtype self) (all_rankings rows) 0
            (empty_array (uninit st) (length (_features self))
               (length (gene_ids rows))) with
    | Ok m => Ok (np_array_U (_features self), np_array_U (gene_ids rows), m)
    | Raise e => Raise e
    end.
Proof.
  intros Hstored Hok.
  by destruct (load_full_run w self rows st Hstored Hok) as (st' & -> & _).
Qed.

(** ** The constructor *)

Lemma str_bool_true (s : string) : str_bool s = true ↔ s ≠ "".
Proof.
  unfold str_bool. rewrite negb_true_iff. apply String.eqb_neq.
Qed.

(** The outcome of the constructor, step by step. *)
Lemma init_result (w : World) (fname name nomenclature : string) (st : state) :
  (__init__ w fname name nomenclature st).1
  = if negb (path_exists w fname)
    then Raise (AssertionError ("Database " +:+ fname +:+ " doesn't exist."))
    else if negb (str_bool name) then Raise (AssertionError "Name must be specified.")
    else if negb (str_bool nomenclature)
    then Raise (AssertionError "Nomenclature must be specified.")
    else
      match sqlite_open w (uri_of w fname) with
      | Ok f =>
          match select_features f with
          | Ok features =>
              match select_count f with
              | Ok gene_count =>
                  Ok {| self_id := next_id st; _fname := fname; _name := name;
                        _nomenclature := nomenclature; _uri := uri_of w fname;
                        _features := features; _gene_count := gene_count;
                        _dtype := derive_dtype gene_count |}
              | Raise e => Raise e
              end
          | Raise e => Raise e
          end
      | Raise e => Raise e
      end.
Proof.
  unfold __init__. unfold bind at 1, new_object. unfold bind at 1.
  destruct (path_exists w fname); [|done].
  unfold assert at 1, ret at 1. unfold bind at 1.
  destruct (str_bool name); [|done].
  unfold assert at 1, ret at 1. unfold bind at 1.
  destruct (str_bool nomenclature); [|done].
  unfold assert at 1, ret at 1.
  unfold fetch_features, fetch_gene_count, connect, emit, lift, ret, bind.
  cbn [genes_cache next_id uninit events negb].
  destruct (sqlite_open w (uri_of w fname)) as [f|e]; [|done].
  destruct (select_features f) as [features|e]; [|done].
  by destruct (select_count f) as [gene_count|e].
Qed.

(** What a returning constructor read. *)
Lemma init_ok (w : World) (fname name nomenclature : string) (st : state)
    (self : RankingDatabase) :
  (__init__ w fname name nomenclature st).1 = Ok self →
  path_exists w fname = true ∧ name ≠ "" ∧ nomenclature ≠ ""
  ∧ ∃ f ms rows, sqlite_open w (uri_of w fname) = Ok f
      ∧ read_motifs f = Ok ms
      ∧ read_rankings f = Ok rows
      ∧ self = {| self_id := next_id st; _fname := fname; _name := name;
                  _nomenclature := nomenclature; _uri := uri_of w fname;
                  _features := (order_by_idx ms).*1;
                  _gene_count := Z.of_nat (length rows);
                  _dtype := derive_dtype (Z.of_nat (length rows)) |}.
Proof.
  rewrite init_result.
  destruct (path_exists w fname); [|done].
  destruct (str_bool name) eqn:Hname; [|done].
  destruct (str_bool nomenclature) eqn:Hnom; [|done].
  apply str_bool_true in Hname, Hnom. cbn [negb].
  destruct (sqlite_open w (uri_of w fname)) as [f|e]; [|done].
  unfold select_features, select_count, rbind.
  destruct (read_motifs f) as [ms|e] eqn:Hms; [|done].
  destruct (read_rankings f) as [rows|e] eqn:Hrows; [|done].
  intros [= <-]. split_and!; [done..|]. by exists f, ms, rows.
Qed.

(** ** The example worlds *)

Lemma cache_ok_st0 (rows : list (string * list byte)) (self : RankingDatabase) :
  cache_ok rows self st0.
Proof.
  intros cached Hc. unfold st0 in Hc. cbn [genes_cache] in Hc.
  by rewrite lookup_empty in Hc.
Qed.

(** The instances of the examples are the ones the constructor makes. *)
Lemma constructed_instances :
  (__init__ demo_world "/db/demo.db" "db" "HGNC" st0).1 = Ok demo_self
  ∧ (__init__ short_world "/db/short.db" "db" "HGNC" st0).1 = Ok short_self
  ∧ (__init__ odd_world "/db/odd.db" "db" "HGNC" st0).1 = Ok odd_self
  ∧ (__init__ empty_world "/db/empty.db" "db" "HGNC" st0).1 = Ok empty_self
  ∧ (__init__ thrice_world "/db/thrice.db" "db" "HGNC" st0).1 = Ok thrice_self
  ∧ (__init__ nul_world "/db/nul.db" "db" "HGNC" st0).1 = Ok nul_self.
Proof. by split_and!. Qed.

Lemma non_empty_signature (gs : GeneSignature) : size gs ≠ 0%nat → gs ≠ ∅.
Proof. intros Hsize ->. by rewrite size_empty in Hsize. Qed.

(** * The properties *)

(** C1: the width of the ranks chosen by the constructor. An instance that
    was constructed holds the number of rows of [rankings] as its gene count,
    its ranks are 16 bits wide exactly when that count is at most 32768 and
    32 bits wide exactly when it is larger; 32768 gives 16 bits and 32769
    gives 32 bits. *)
Theorem rank_width_selection (w : World) (fname name nomenclature : string)
    (st : state) (self : RankingDatabase) :
  (__init__ w fname name nomenclature st).1 = Ok self →
  (∃ rows, stored_rankings w (uri_of w fname) = Ok rows
     ∧ _gene_count self = Z.of_nat (length rows))
  ∧ (_dtype self = int16 ↔ _gene_count self ≤ 32768)
  ∧ (_dtype self = int32 ↔ 32768 < _gene_count self)
  ∧ derive_dtype 32768 = int16
  ∧ derive_dtype 32769 = int32.
Proof.
  intros (_ & _ & _ & f & ms & rows & Hf & _ & Hrows & ->)%init_ok.
  cbn [_gene_count _dtype]. split.
  { exists rows. split; [|done]. apply stored_rankings_ok. by exists f. }
  unfold derive_dtype.
  split_and!; [| |done..];
    destruct (Z.leb_spec (Z.of_nat (length rows)) (2 ^ 15));
    split; intros; try done; lia.
Qed.

Lemma rank_width_selection_witness :
  ∃ self, (__init__ demo_world "/db/demo.db" "db" "HGNC" st0).1 = Ok self
    ∧ _gene_count self = 4 ∧ (_dtype self = int16 ↔ _gene_count self ≤ 32768).
Proof.
  eexists. split; [reflexivity|]. split; [reflexivity|].
  eapply (rank_width_selection demo_world "/db/demo.db" "db" "HGNC" st0).
  reflexivity.
Defined.

(** C7 (as amended): quoting round-trips for identifiers without a NUL
    character. The reader of the [IN] list gets back, from the text that
    [quoted_csv] makes, exactly the identifiers it was made from, whatever
    quotes they hold; when none of them holds a NUL character the statement
    that [load] sends is accepted and selects the rows of the store whose
    identifier is one of them, no more and no fewer; when one of them holds a
    NUL character the statement is refused with a [ProgrammingError]. *)
Theorem quoting_round_trip (f : file) (values : list string) (tail : string)
    (st : state) :
  lex_in_list AtStart [] (quoted_csv values +:+ ")" +:+ tail) = Some (values, tail)
  ∧ (nul_free values →
     (execute_rankings_query f (RANKINGS_QUERY_format (quoted_csv values)) st).1
     = select_rankings_in f values)
  ∧ (∀ rows r, r ∈ rankings_in rows values ↔ r.1 ∈ values ∧ r ∈ rows)
  ∧ (∀ v, v ∈ values → has_nul v = true →
     (execute_rankings_query f (RANKINGS_QUERY_format (quoted_csv values)) st).1
     = Raise (ProgrammingError "the query contains a null character")).
Proof.
  split_and!.
  - by rewrite lex_quoted_csv by (by right).
  - intros Hfree%has_nul_quoted_csv.
    by rewrite execute_rankings_query_quoted, Hfree.
  - intros rows r. apply elem_of_rankings_in.
  - intros v Hv Hnul. rewrite execute_rankings_query_quoted.
    destruct (has_nul (quoted_csv values)) eqn:Hq; [done|].
    apply has_nul_quoted_csv in Hq. rewrite (Hq v Hv) in Hnul. done.
Qed.

Lemma quoting_round_trip_witness :
  (execute_rankings_query (store demo_motifs [("O'Brien1", [b 0; b 0])])
     (RANKINGS_QUERY_format (quoted_csv ["O'Brien1"; "g2"])) st0).1
  = Ok [("O'Brien1", [b 0; b 0])].
Proof.
  etrans; [apply (quoting_round_trip _ ["O'Brien1"; "g2"] "" st0)|reflexivity].
  intros id Hid. repeat (apply elem_of_cons in Hid as [->|Hid]; [reflexivity|]).
  by apply elem_of_nil in Hid.
Defined.

(** The claim C7 as it was stated fails on an identifier that holds a NUL
    character: the statement made for it is refused, although the store has a
    row for it. *)
Lemma quoting_round_trip_counterexample :
  has_nul g1_nul = true
  ∧ (g1_nul, [b 7; b 0]) ∈ nul_rows
  ∧ (execute_rankings_query (store [(f1_nul, 0)] nul_rows)
       (RANKINGS_QUERY_format (quoted_csv [g1_nul])) st0).1
    = Raise (ProgrammingError "the query contains a null character").
Proof. split_and!; [done|by left|done]. Qed.

(** C8: [load] with an empty gene signature fails on its assertion; the
    state is the one it started from, so that no matrix was allocated and no
    statement was sent. *)
Theorem load_empty_signature (w : World) (self : RankingDatabase) (st : state) :
  load w self ∅ st = (Raise (AssertionError "A gene signature must be supplied"), st).
Proof. apply load_refuses_empty. Qed.

(** C9 (as amended): the checks of the constructor. A path that does not
    exist fails the first assertion; an empty name or nomenclature fails an
    assertion, the one on the name or the nomenclature when the path exists;
    past the assertions, an exception of the connection or of either
    statement (the file is no database, a table is missing) is the
    exception of the constructor; the constructor returns an instance
    exactly when the path exists, both strings are non-empty, and the
    connection reads both tables. *)
Theorem init_checks (w : World) (fname name nomenclature : string) (st : state) :
  (path_exists w fname = false →
     (__init__ w fname name nomenclature st).1
     = Raise (AssertionError ("Database " +:+ fname +:+ " doesn't exist.")))
  ∧ (name = "" ∨ nomenclature = "" →
     ∃ msg, (__init__ w fname name nomenclature st).1 = Raise (AssertionError msg)
       ∧ (path_exists w fname = true →
          msg = if decide (name = "") then "Name must be specified."
                else "Nomenclature must be specified."))
  ∧ (path_exists w fname = true → name ≠ "" → nomenclature ≠ "" →
     (∀ e, sqlite_open w (uri_of w fname) = Raise e →
        (__init__ w fname name nomenclature st).1 = Raise e)
     ∧ (∀ f e, sqlite_open w (uri_of w fname) = Ok f →
          read_motifs f = Raise e ∨ (is_ok (read_motifs f) = true ∧ read_rankings f = Raise e) →
          (__init__ w fname name nomenclature st).1 = Raise e))
  ∧ ((∃ self, (__init__ w fname name nomenclature st).1 = Ok self)
     ↔ path_exists w fname = true ∧ name ≠ "" ∧ nomenclature ≠ ""
       ∧ ∃ f, sqlite_open w (uri_of w fname) = Ok f
           ∧ is_ok (read_motifs f) = true ∧ is_ok (read_rankings f) = true).
Proof.
  rewrite init_result. split_and!.
  - by intros ->.
  - intros Hempty. destruct (path_exists w fname); cbn [negb].
    + destruct (decide (name = "")) as [->|Hname]; [by eexists|].
      destruct Hempty as [?| ->]; [done|].
      apply str_bool_true in Hname as ->. by eexists.
    + by eexists.
  - intros -> Hname%str_bool_true Hnom%str_bool_true. rewrite Hname, Hnom.
    cbn [negb]. split.
    + by intros e ->.
    + intros f e -> Hfail. unfold select_features, select_count, rbind.
      destruct Hfail as [->|[Hms ->]]; [done|].
      by destruct (read_motifs f).
  - destruct (path_exists w fname); cbn [negb];
      [|split; [by intros [? ?]|by intros [? _]]].
    destruct (str_bool name) eqn:Hname; cbn [negb]; last first.
    { split; [by intros [? ?]|]. intros (_ & Hn%str_bool_true & _). congruence. }
    destruct (str_bool nomenclature) eqn:Hnom; cbn [negb]; last first.
    { split; [by intros [? ?]|]. intros (_ & _ & Hn%str_bool_true & _). congruence. }
    apply str_bool_true in Hname, Hnom.
    destruct (sqlite_open w (uri_of w fname)) as [f|e]; last first.
    { split; [by intros [? ?]|]. by intros (_ & _ & _ & f & ? & _). }
    unfold select_features, select_count, rbind.
    destruct (read_motifs f) as [ms|e] eqn:Hms.
    + destruct (read_rankings f) as [rows|e] eqn:Hrows.
      * split; [|by eexists]. intros _. split_and!; [done..|].
        exists f. by rewrite Hms, Hrows.
      * split; [by intros [? ?]|]. intros (_ & _ & _ & f' & [= <-] & _ & Hr).
        by rewrite Hrows in Hr.
    + split; [by intros [? ?]|]. intros (_ & _ & _ & f' & [= <-] & Hm & _).
      by rewrite Hms in Hm.
Qed.

Lemma init_checks_witness :
  (__init__ demo_world "/db/none.db" "db" "HGNC" st0).1
  = Raise (AssertionError "Database /db/none.db doesn't exist.")
  ∧ (∃ msg, (__init__ demo_world "/db/demo.db" "db" "" st0).1 = Raise (AssertionError msg))
  ∧ (∃ self, (__init__ demo_world "/db/demo.db" "db" "HGNC" st0).1 = Ok self).
Proof.
  split_and!.
  - apply (proj1 (init_checks demo_world "/db/none.db" "db" "HGNC" st0)).
    reflexivity.
  - destruct (proj1 (proj2 (init_checks demo_world "/db/demo.db" "db" "" st0)))
      as (msg & Hmsg & _); [by right|]. by exists msg.
  - apply (proj2 (proj2 (proj2 (init_checks demo_world "/db/demo.db" "db" "HGNC" st0)))).
    split_and!; [done..|]. by eexists.
Defined.

(** The claim C9 as it was stated fails on a file that exists and is no
    database: the constructor passes its assertions and raises the
    [DatabaseError] of the first statement, not the assertion of a missing
    path. *)
Lemma init_checks_counterexample :
  path_exists notes_world "/db/notes.txt" = true
  ∧ sqlite_open notes_world (uri_of notes_world "/db/notes.txt") = Ok NotADatabase
  ∧ (__init__ notes_world "/db/notes.txt" "db" "HGNC" st0).1
    = Raise (DatabaseError "file is not a database").
Proof. by split_and!. Qed.

Lemma demo_blobs (gene : string) (blob : list byte) :
  (gene, blob) ∈ demo_rows → length blob = 6%nat.
Proof.
  intros Hin.
  assert (Forall (λ r, length r.2 = 6%nat) demo_rows) as Hall
    by (by repeat constructor).
  by apply (proj1 (Forall_forall _ _) Hall (gene, blob)).
Qed.

(** C3 (as amended): the gene vector of [load]. For a non-empty signature,
    a gene vector that [load] returns ascends in the order of the
    identifiers, holds exactly the requested identifiers that the store has
    (a requested identifier that the store lacks is left out), and is no
    longer than the signature. When no requested identifier holds a NUL
    character, on a store with distinct identifiers and one rank per
    feature in every blob [load] does return, whatever identifiers the
    signature holds besides; a requested identifier that holds a NUL
    character makes [load] raise a [ProgrammingError]. *)
Theorem load_gene_vector (w : World) (self : RankingDatabase)
    (rows : list (string * list byte)) (gs : GeneSignature) (st : state) :
  stored_rankings w (_uri self) = Ok rows →
  gs ≠ ∅ →
  (∀ fv gv m, (load w self gs st).1 = Ok (fv, gv, m) →
     StronglySorted String.le gv
     ∧ (∀ g, g ∈ gv ↔ g ∈ gs ∧ g ∈ rows.*1)
     ∧ (length gv ≤ gs_len gs)%nat)
  ∧ (nul_free (gs_genes gs) →
     NoDup rows.*1 →
     (∀ gene blob, (gene, blob) ∈ rows →
        length blob = (length (_features self) * itemsize (_dtype self))%nat) →
     ∃ m, (load w self gs st).1
          = Ok (np_array_U (_features self), (rankings_in rows (gs_genes gs)).*1, m))
  ∧ (∀ g, g ∈ gs → has_nul g = true →
     (load w self gs st).1
     = Raise (ProgrammingError "the query contains a null character")).
Proof.
  intros Hstored Hgs. split_and!.
  - intros fv gv m Hload.
    apply (load_ok w self rows) in Hload as (_ & _ & -> & -> & Hfill); [|done].
    split_and!.
    + apply order_by_geneID_sorted.
    + intros g. rewrite list_elem_of_fmap. split.
      * intros ([g' blob] & -> & [Hin Hr]%elem_of_rankings_in).
        split; [by apply elem_of_elements|].
        by apply (list_elem_of_fmap_2 fst) in Hr.
      * intros [Hg ([g' blob] & -> & Hr)%list_elem_of_fmap].
        exists (g', blob). split; [done|].
        apply elem_of_rankings_in. split; [|done].
        by apply elem_of_elements.
    + apply fill_full_ok in Hfill as (_ & _ & Hroom & _);
        [|by rewrite length_columns_empty_array].
      rewrite length_fmap. destruct Hroom as [-> | Hroom]; simpl in *; lia.
  - intros Hfree Hnodup Hblobs.
    rewrite (load_run w self rows gs st Hstored Hgs Hfree).
    destruct (fill_full_exact (_dtype self) (rankings_in rows (gs_genes gs)) 0
      (empty_array (uninit st) (length (_features self)) (gs_len gs))) as [m ->].
    + intros gene blob [_ Hin]%elem_of_rankings_in. by eapply Hblobs.
    + simpl. unfold gs_len, size, set_size. simpl.
      rewrite <-(length_fmap fst (rankings_in rows (gs_genes gs))).
      apply submseteq_length, NoDup_submseteq.
      * unfold rankings_in. rewrite order_by_geneID_perm.
        eapply sublist_NoDup; [exact Hnodup|].
        apply fmap_sublist, sublist_filter.
      * intros g ([g' blob] & -> & [Hin _]%elem_of_rankings_in)%list_elem_of_fmap.
        done.
    + by exists m.
  - intros g Hg Hnul. apply stored_rankings_ok in Hstored as (f & Hf & _).
    apply gs_bool_true in Hgs. rewrite load_result, Hgs, Hf.
    destruct (has_nul (quoted_csv (gs_genes gs))) eqn:Hq; [done|].
    apply has_nul_quoted_csv in Hq.
    rewrite (Hq g) in Hnul; [done|]. by apply elem_of_elements.
Qed.

Lemma load_gene_vector_witness :
  ∃ m, (load demo_world demo_self {["g2"; "g4"; "gX"]} st0).1
       = Ok (["f1"; "f2"; "f3"], ["g2"; "g4"], m).
Proof.
  assert (({["g2"; "g4"; "gX"]} : GeneSignature) ≠ ∅) as Hgs
    by (apply non_empty_signature; by vm_compute).
  destruct (proj1 (proj2 (load_gene_vector demo_world demo_self demo_rows
    {["g2"; "g4"; "gX"]} st0 eq_refl Hgs))) as [m Hm].
  - intros id Hid%elem_of_elements.
    repeat (apply elem_of_union in Hid as [Hid|Hid]);
      apply elem_of_singleton in Hid as ->; reflexivity.
  - apply (bool_decide_unpack _). by vm_compute.
  - apply demo_blobs.
  - exists m. rewrite Hm. reflexivity.
Defined.

(** The claim C3 as it was stated fails on a requested identifier that
    holds a NUL character: the store has no row for it, and [load] does not
    leave it out but raises. *)
Lemma load_gene_vector_counterexample :
  (g1_nul ∉ demo_rows.*1)
  ∧ (load demo_world demo_self {["g2"; g1_nul]} st0).1
    = Raise (ProgrammingError "the query contains a null character").
Proof.
  split; [|reflexivity]. apply (bool_decide_unpack _). by vm_compute.
Qed.







(** C4 (as amended): malformed blobs. When a row of the store has a blob
    whose length is no multiple of the rank width, or whose number of ranks
    is neither the number of features nor one, [load_full] raises a
    [ValueError], and [load] raises for every signature that requests that
    row; neither returns a matrix. *)
Theorem malformed_blob_fails (w : World) (self : RankingDatabase)
    (rows : list (string * list byte)) (st : state) (gene : string) (blob : list byte) :
  stored_rankings w (_uri self) = Ok rows →
  cache_ok rows self st →
  (gene, blob) ∈ rows →
  malformed (_dtype self) (length (features self)) blob →
  (∃ msg, (load_full w self st).1 = Raise (ValueError msg))
  ∧ (∀ gs, gene ∈ gs → ∃ e, (load w self gs st).1 = Raise e).
Proof.
  intros Hstored Hok Hin Hbad. unfold features in Hbad. split.
  - rewrite (load_full_result w self rows st Hstored Hok).
    destruct (fill_full_malformed (_dtype self) (all_rankings rows) 0
      (empty_array (uninit st) (length (_features self))
         (length (gene_ids rows))) gene blob) as [e He]; [|done|].
    { unfold all_rankings. by rewrite order_by_geneID_perm. }
    rewrite He. apply fill_full_raise in He as [msg ->]; [by exists msg|].
    simpl. by rewrite length_all_rankings.
  - intros gs Hgs. apply stored_rankings_ok in Hstored as (f & Hf & Hrows).
    rewrite load_result, Hf, Hrows.
    destruct (gs_bool gs); [|by eexists].
    destruct (has_nul (quoted_csv (gs_genes gs))); [by eexists|].
    destruct (fill_full_malformed (_dtype self) (rankings_in rows (gs_genes gs)) 0
      (empty_array (uninit st) (length (_features self)) (gs_len gs)) gene blob)
      as [e He]; [|done|].
    { apply elem_of_rankings_in. split; [|done]. by apply elem_of_elements. }
    rewrite He. by exists e.
Qed.

Lemma malformed_blob_fails_witness :
  (∃ msg, (load_full odd_world odd_self st0).1 = Raise (ValueError msg))
  ∧ (∃ e, (load odd_world odd_self {["g2"]} st0).1 = Raise e).
Proof.
  destruct (malformed_blob_fails odd_world odd_self odd_rows st0 "g2" [b 5; b 0; b 1]
              eq_refl (cache_ok_st0 odd_rows odd_self)) as [Hfull Hload].
  - right. left.
  - left. simpl. lia.
  - split; [exact Hfull|]. apply Hload. by apply elem_of_singleton.
Defined.

(** The claim C4 as it was stated fails on the store with the short blob:
    the blob decodes to one rank, the features are two, and both loaders
    return. *)
Lemma malformed_blob_counterexample :
  ("g1", [b 5; b 0]) ∈ short_rows
  ∧ frombuffer [b 5; b 0] (_dtype short_self) = Ok [5]
  ∧ length [5] ≠ length (features short_self)
  ∧ is_ok (load_full short_world short_self st0).1 = true
  ∧ is_ok (load short_world short_self {["g1"]} st0).1 = true.
Proof. split_and!; [by left|done..]. Qed.

(** C6 (as amended): the order of the gene vector of [load_full]. The
    gene vector that [load_full] returns is the list of the identifiers of
    the store in ascending order of identifier, each without its trailing
    NUL characters, as [np.array] shows it; it ascends, it is a
    rearrangement of the identifiers of the table so shown, and the only
    ascending one, so that it is determined by the contents of the store.
    When no identifier holds a NUL character it is the ascending
    rearrangement of the identifiers themselves. *)
Theorem load_full_gene_order (w : World) (self : RankingDatabase)
    (rows : list (string * list byte)) (st : state) (fv gv : list string) (m : ndarray) :
  stored_rankings w (_uri self) = Ok rows →
  cache_ok rows self st →
  (load_full w self st).1 = Ok (fv, gv, m) →
  gv = rstrip_nul <$> (order_by_geneID rows).*1
  ∧ StronglySorted String.le gv
  ∧ gv ≡ₚ rstrip_nul <$> rows.*1
  ∧ (∀ l, Sorted String.le l → l ≡ₚ rstrip_nul <$> rows.*1 → l = gv)
  ∧ (nul_free rows.*1 → gv = (order_by_geneID rows).*1 ∧ gv ≡ₚ rows.*1).
Proof.
  intros Hstored Hok Hload.
  rewrite (load_full_result w self rows st Hstored Hok) in Hload.
  destruct (fill_full _ _ _ _) as [m'|e]; [|done]. simplify_eq/=.
  assert (StronglySorted String.le (np_array_U (gene_ids rows))) as Hsorted.
  { apply (StronglySorted_fmap rstrip_nul String.le String.le);
      [apply rstrip_nul_mono|apply order_by_geneID_sorted]. }
  assert (np_array_U (gene_ids rows) ≡ₚ rstrip_nul <$> rows.*1) as Hperm.
  { unfold np_array_U, gene_ids. by rewrite order_by_geneID_perm. }
  split_and!; [done..| |].
  - intros l Hl Hlperm. apply (Sorted_unique String.le); [done| |].
    + by apply StronglySorted_Sorted.
    + by rewrite Hlperm, Hperm.
  - intros Hfree.
    assert (np_array_U (gene_ids rows) = gene_ids rows) as ->.
    { apply np_array_U_id. intros id Hid. apply Hfree.
      unfold gene_ids in Hid. by rewrite order_by_geneID_perm in Hid. }
    split; [done|]. unfold gene_ids. by rewrite order_by_geneID_perm.
Qed.

Lemma load_full_gene_order_witness :
  ∃ gv m, (load_full demo_world demo_self st0).1 = Ok (["f1"; "f2"; "f3"], gv, m)
    ∧ gv = ["g1"; "g2"; "g3"; "g4"]
    ∧ StronglySorted String.le gv.
Proof.
  eexists _, _. split; [reflexivity|]. split; [reflexivity|].
  eapply (load_full_gene_order demo_world demo_self demo_rows st0);
    [reflexivity|apply cache_ok_st0|reflexivity].
Defined.

(** The claim C6 as it was stated fails on the demonstration store: the
    table lists g3, g1, g4, g2 in the order of its rows, and the gene vector
    is g1, g2, g3, g4. *)
Lemma load_full_gene_order_counterexample :
  ∃ gv m, (load_full demo_world demo_self st0).1 = Ok (["f1"; "f2"; "f3"], gv, m)
    ∧ demo_rows.*1 = ["g3"; "g1"; "g4"; "g2"]
    ∧ gv = ["g1"; "g2"; "g3"; "g4"]
    ∧ gv ≠ demo_rows.*1.
Proof. eexists _, _. split_and!; [reflexivity..|done]. Qed.

(** C10 (as amended): [load] of all the genes against [load_full]. On a
    store with at least one gene, distinct gene identifiers and no NUL
    character in them, [load] with the signature made of all the identifiers
    of the store gives what [load_full] gives: the same feature vector, gene
    vector and matrix, or the same exception. *)
Theorem load_all_genes (w : World) (self : RankingDatabase)
    (rows : list (string * list byte)) (st1 st2 : state) :
  stored_rankings w (_uri self) = Ok rows →
  cache_ok rows self st2 →
  rows ≠ [] →
  NoDup rows.*1 →
  nul_free rows.*1 →
  (load w self (list_to_set (gene_ids rows)) st1).1 = (load_full w self st2).1.
Proof.
  intros Hstored Hok Hne Hnodup Hfree.
  assert (gene_ids rows ≡ₚ rows.*1) as Hperm.
  { unfold gene_ids. by rewrite order_by_geneID_perm. }
  assert (gs_len (list_to_set (gene_ids rows)) = length (gene_ids rows)) as Hlen.
  { apply size_list_to_set. by rewrite Hperm. }
  assert ((list_to_set (gene_ids rows) : GeneSignature) ≠ ∅) as Hgs.
  { apply non_empty_signature. unfold gs_len in Hlen.
    rewrite Hlen, Hperm, length_fmap. by destruct rows. }
  assert (nul_free (gene_ids rows)) as Hfree'.
  { intros id Hid. apply Hfree. by rewrite <-Hperm. }
  rewrite (load_run w self rows _ st1 Hstored Hgs); last first.
  { intros id Hid%elem_of_elements%elem_of_list_to_set. by apply Hfree'. }
  rewrite (load_full_result w self rows st2 Hstored Hok).
  rewrite rankings_in_all; last first.
  { intros r Hr. apply elem_of_elements, elem_of_list_to_set.
    rewrite Hperm. by apply list_elem_of_fmap_2. }
  rewrite Hlen, (np_array_U_id (gene_ids rows)) by done.
  rewrite (fill_full_whole (_dtype self) (all_rankings rows)
    (empty_array (uninit st1) (length (_features self)) (length (gene_ids rows)))
    (empty_array (uninit st2) (length (_features self)) (length (gene_ids rows))));
    [|done|by rewrite length_columns_empty_array..|].
  - by destruct (fill_full _ _ _ _).
  - simpl. by rewrite length_all_rankings.
Qed.

Lemma load_all_genes_witness :
  (load demo_world demo_self (list_to_set (gene_ids demo_rows)) st0).1
  = (load_full demo_world demo_self st0).1
  ∧ is_ok (load_full demo_world demo_self st0).1 = true.
Proof.
  split; [|reflexivity].
  apply (load_all_genes demo_world demo_self demo_rows st0 st0 eq_refl
           (cache_ok_st0 demo_rows demo_self)).
  - discriminate.
  - apply (bool_decide_unpack _). by vm_compute.
  - intros id Hid. simpl in Hid.
    repeat (apply elem_of_cons in Hid as [->|Hid]; [reflexivity|]).
    by apply elem_of_nil in Hid.
Defined.

(** The claim C10 as it was stated fails on the store with no genes: its
    gene list is empty, [load] of the empty signature fails on its assertion
    and [load_full] returns a matrix with no column. *)
Lemma load_all_genes_counterexample :
  gene_ids [] = []
  ∧ (load empty_world empty_self (list_to_set (gene_ids [])) st0).1
    = Raise (AssertionError "A gene signature must be supplied")
  ∧ (load_full empty_world empty_self st0).1 = Ok (["f1"], [], NdArray (1%nat, 0%nat) [])
  ∧ (load empty_world empty_self (list_to_set (gene_ids [])) st0).1
    ≠ (load_full empty_world empty_self st0).1.
Proof. split_and!; [reflexivity..|done]. Qed.

(** * Further properties *)

(** X1: the width that [derive_dtype] picks holds every 0-based rank of a
    genome of [n] genes, as long as [n] is at most 2^31: such a rank lies in
    the range of the dtype and is read back unchanged from its unsigned
    value. *)
Theorem derive_dtype_holds_ranks (n r : Z) :
  n ≤ 2 ^ 31 →
  0 ≤ r < n →
  in_range (derive_dtype n) r
  ∧ to_signed (bits (derive_dtype n)) r = r.
Proof.
  intros Hn Hr.
  assert (0 ≤ r < 2 ^ (bits (derive_dtype n) - 1)) as Hfit.
  { unfold derive_dtype. destruct (Z.leb_spec n (2 ^ 15)); simpl; lia. }
  split; [|by apply to_signed_small].
  unfold in_range. lia.
Qed.

Lemma derive_dtype_holds_ranks_witness :
  in_range (derive_dtype 32768) 32767
  ∧ to_signed (bits (derive_dtype 32768)) 32767 = 32767.
Proof. apply (derive_dtype_holds_ranks 32768 32767); lia. Defined.

(** X2: every entry that the loaders write is a value of the dtype of the
    instance. All the entries of a matrix returned by [load_full], and the
    entries of the columns of the returned genes in a matrix returned by
    [load], lie in the range of [_dtype]. *)
Theorem loaded_ranks_in_range (w : World) (self : RankingDatabase)
    (rows : list (string * list byte)) (st : state) :
  stored_rankings w (_uri self) = Ok rows →
  cache_ok rows self st →
  (∀ fv gv m, (load_full w self st).1 = Ok (fv, gv, m) →
     Forall (Forall (in_range (_dtype self))) (columns m))
  ∧ (∀ gs fv gv m, (load w self gs st).1 = Ok (fv, gv, m) →
       Forall (Forall (in_range (_dtype self))) (take (length gv) (columns m))).
Proof.
  intros Hstored Hok. split.
  - intros fv gv m Hload.
    rewrite (load_full_result w self rows st Hstored Hok) in Hload.
    destruct (fill_full _ _ _ _) as [m'|e] eqn:Hfill; [|done]. simplify_eq/=.
    apply fill_full_ok in Hfill as (_ & Hlen & _ & Hcols & _);
      [|by rewrite length_columns_empty_array].
    rewrite length_columns_empty_array in Hlen.
    apply Forall_lookup. intros i col Hi.
    assert (i < length (all_rankings rows))%nat as Hlt.
    { apply lookup_lt_Some in Hi. by rewrite Hlen, <-length_all_rankings in Hi. }
    apply lookup_lt_is_Some in Hlt as [[gene blob] Hrow].
    destruct (Hcols i gene blob Hrow) as (vals & col' & Hvals & Hcol & Hm).
    simpl in Hm. simplify_eq.
    eapply broadcast_to_Forall; [done|].
    apply frombuffer_ok in Hvals as (_ & -> & _). apply decode_items_range.
  - intros gs fv gv m Hload.
    apply (load_ok w self rows) in Hload as (_ & _ & -> & -> & Hfill); [|done].
    apply fill_full_ok in Hfill as (_ & _ & _ & Hcols & _);
      [|by rewrite length_columns_empty_array].
    apply Forall_lookup. intros i col Hi.
    apply lookup_take_Some in Hi as [Hi Hlt]. rewrite length_fmap in Hlt.
    apply lookup_lt_is_Some in Hlt as [[gene blob] Hrow].
    destruct (Hcols i gene blob Hrow) as (vals & col' & Hvals & Hcol & Hm).
    simpl in Hm. simplify_eq.
    eapply broadcast_to_Forall; [done|].
    apply frombuffer_ok in Hvals as (_ & -> & _). apply decode_items_range.
Qed.

Lemma loaded_ranks_in_range_witness :
  ∃ m, (load_full demo_world demo_self st0).1
       = Ok (["f1"; "f2"; "f3"], ["g1"; "g2"; "g3"; "g4"], m)
    ∧ Forall (Forall (in_range int16)) (columns m).
Proof.
  eexists. split; [reflexivity|].
  eapply (proj1 (loaded_ranks_in_range demo_world demo_self demo_rows st0 eq_refl
                   (cache_ok_st0 demo_rows demo_self))).
  reflexivity.
Defined.

(** ** What the loaders do to the state *)

(** X3: [load] changes nothing of the state but the log of events: it
    neither fills nor clears the cache of [genes], whether it returns or
    raises. *)
Theorem load_logs_only (w : World) (self : RankingDatabase) (gs : GeneSignature)
    (st : state) :
  genes_cache (load w self gs st).2 = genes_cache st
  ∧ uninit (load w self gs st).2 = uninit st
  ∧ ∃ more, events (load w self gs st).2 = events st ++ more.
Proof.
  assert (logs_only (load w self gs)) as Hload; [|by destruct (Hload st) as (?&?&?&?)].
  unfold load.
  apply logs_only_bind; [apply logs_only_assert|]. intros _.
  apply logs_only_bind; [apply logs_only_np_empty|]. intros rankings.
  apply logs_only_bind; [apply logs_only_connect|]. intros f.
  apply logs_only_bind; [apply logs_only_execute_rankings_query|]. intros rows.
  apply logs_only_bind; [apply logs_only_lift|]. intros filled.
  apply logs_only_ret.
Qed.

(** X4: a store that cannot be opened. When the connection to the URI of
    the instance raises, [load] of a non-empty signature and [load_full]
    both raise that exception, whatever the cache of [genes] holds. *)
Theorem loaders_without_store (w : World) (self : RankingDatabase) (st : state)
    (e : exn) :
  sqlite_open w (_uri self) = Raise e →
  (load_full w self st).1 = Raise e
  ∧ ∀ gs, gs ≠ ∅ → (load w self gs st).1 = Raise e.
Proof.
  intros Hopen. split.
  - unfold load_full. unfold bind at 1, genes.
    destruct (genes_cache st !! self_id self) as [cached|].
    + unfold bind at 1, np_empty. unfold bind at 1, connect.
      unfold bind at 1, emit, lift.
      cbn [genes_cache next_id uninit events]. by rewrite Hopen.
    + unfold bind at 1, connect. unfold bind at 1, emit, lift.
      cbn [genes_cache next_id uninit events]. by rewrite Hopen.
  - intros gs Hgs%gs_bool_true. by rewrite load_result, Hgs, Hopen.
Qed.

Lemma loaders_without_store_witness :
  (load_full no_world demo_self st0).1
  = Raise (OperationalError "unable to open database file")
  ∧ (load no_world demo_self {["g1"]} st0).1
    = Raise (OperationalError "unable to open database file").
Proof.
  destruct (loaders_without_store no_world demo_self st0 _ eq_refl) as [Hfull Hload].
  split; [exact Hfull|]. apply Hload. apply non_empty_signature. by vm_compute.
Defined.

(** X5: nothing matches. When the store has none of the requested
    identifiers and none of them holds a NUL character, [load] of a
    non-empty signature returns the features as [np.array] shows them, an
    empty gene vector and the matrix exactly as [np.empty] allocated it,
    with one column per requested identifier. *)
Theorem load_no_match (w : World) (self : RankingDatabase)
    (rows : list (string * list byte)) (gs : GeneSignature) (st : state) :
  stored_rankings w (_uri self) = Ok rows →
  gs ≠ ∅ →
  nul_free (gs_genes gs) →
  (∀ g, g ∈ gs → g ∉ rows.*1) →
  (load w self gs st).1
  = Ok (np_array_U (features self), [],
        empty_array (uninit st) (length (features self)) (gs_len gs)).
Proof.
  intros Hstored Hgs Hfree Hnone.
  rewrite (load_run w self rows gs st Hstored Hgs Hfree).
  unfold rankings_in. rewrite filter_none; [done|].
  intros [gene blob] Hin Hreq. apply (Hnone gene).
  - by apply elem_of_elements.
  - by apply (list_elem_of_fmap_2 fst) in Hin.
Qed.

Lemma load_no_match_witness :
  (load demo_world demo_self {["gX"]} st0).1
  = Ok (["f1"; "f2"; "f3"], [], NdArray (3%nat, 1%nat) [[-1; -1; -1]]).
Proof.
  etrans; [apply (load_no_match demo_world demo_self demo_rows {["gX"]} st0 eq_refl)|].
  - apply non_empty_signature. by vm_compute.
  - intros id Hid%elem_of_elements%elem_of_singleton. by subst.
  - intros g ->%elem_of_singleton Hin. simpl in Hin.
    repeat (apply elem_of_cons in Hin as [[=]|Hin]). by apply elem_of_nil in Hin.
  - by vm_compute.
Defined.

(** X6: more rows than columns. The matrix of [load] has one column per
    requested identifier; when no requested identifier holds a NUL
    character, the statement returns more rows than that, which takes an
    identifier with several rows in the store, and the blobs hold one rank
    per feature, [load] raises an [IndexError]. *)
Theorem load_runs_out_of_columns (w : World) (self : RankingDatabase)
    (rows : list (string * list byte)) (gs : GeneSignature) (st : state) :
  stored_rankings w (_uri self) = Ok rows →
  gs ≠ ∅ →
  nul_free (gs_genes gs) →
  (∀ gene blob, (gene, blob) ∈ rows →
     length blob = (length (features self) * itemsize (_dtype self))%nat) →
  (gs_len gs < length (rankings_in rows (gs_genes gs)))%nat →
  ∃ msg, (load w self gs st).1 = Raise (IndexError msg).
Proof.
  intros Hstored Hgs Hfree Hblobs Hmore.
  rewrite (load_run w self rows gs st Hstored Hgs Hfree).
  destruct (fill_full_overflow (_dtype self) (rankings_in rows (gs_genes gs)) 0
    (empty_array (uninit st) (length (_features self)) (gs_len gs))) as [msg ->].
  - intros gene blob [_ Hin]%elem_of_rankings_in. by eapply Hblobs.
  - simpl. lia.
  - by exists msg.
Qed.

Lemma load_runs_out_of_columns_witness :
  ∃ msg, (load thrice_world thrice_self {["g1"]} st0).1 = Raise (IndexError msg).
Proof.
  apply (load_runs_out_of_columns thrice_world thrice_self thrice_rows {["g1"]} st0
           eq_refl).
  - apply non_empty_signature. by vm_compute.
  - intros id Hid%elem_of_elements%elem_of_singleton. by subst.
  - intros gene blob Hin.
    assert (Forall (λ r, length r.2 = 2%nat) thrice_rows) as Hall
      by (by repeat constructor).
    by apply (proj1 (Forall_forall _ _) Hall (gene, blob)).
  - vm_compute. lia.
Defined.

(** ** The constructor and the cache of [genes] *)

(** X7: what a constructed instance holds. Its name and nomenclature are
    the arguments of the constructor, its features are the names of the
    motifs arranged by ascending [idx], and its gene count is the number of
    rows of [rankings]. *)
Theorem constructed_attributes (w : World) (fname name' nomenclature' : string)
    (st : state) (self : RankingDatabase) :
  (__init__ w fname name' nomenclature' st).1 = Ok self →
  name self = name'
  ∧ nomenclature self = nomenclature'
  ∧ ∃ f ms rs, sqlite_open w (uri_of w fname) = Ok f
      ∧ read_motifs f = Ok ms
      ∧ read_rankings f = Ok rs
      ∧ total_genes self = Z.of_nat (length rs)
      ∧ ∃ rows, rows ≡ₚ ms
          ∧ Sorted (λ m1 m2, m1.2 ≤ m2.2) rows
          ∧ features self = rows.*1.
Proof.
  intros (_ & _ & _ & f & ms & rs & Hf & Hms & Hrs & ->)%init_ok.
  split_and!; [done..|].
  exists f, ms, rs. split_and!; [done..|].
  exists (order_by_idx ms). split_and!.
  - apply order_by_perm.
  - apply (order_by_sorted by_idx).
  - done.
Qed.

Lemma constructed_attributes_witness :
  ∃ self, (__init__ demo_world "/db/demo.db" "db" "HGNC" st0).1 = Ok self
    ∧ name self = "db" ∧ nomenclature self = "HGNC".
Proof.
  eexists. split; [reflexivity|].
  pose proof (constructed_attributes demo_world "/db/demo.db" "db" "HGNC" st0 _ eq_refl)
    as (Hname & Hnom & _).
  by split.
Defined.

(** The state that the constructor leaves. *)
Lemma init_state (w : World) (fname name nomenclature : string) (st : state) :
  (__init__ w fname name nomenclature st).2
  = State (genes_cache st) (S (next_id st)) (uninit st)
      (events st
       ++ if path_exists w fname && str_bool name && str_bool nomenclature
          then EvConnect (uri_of w fname)
               :: match sqlite_open w (uri_of w fname) with
                  | Ok f =>
                      EvExecute FEATURE_IDS_QUERY
                      :: match select_features f with
                         | Ok _ => [EvConnect (uri_of w fname);
                                    EvExecute GENE_ID_COUNT_QUERY]
                         | Raise _ => []
                         end
                  | Raise _ => []
                  end
          else []).
Proof.
  unfold __init__, new_object, bind at 1.
  destruct (path_exists w fname); unfold assert at 1, bind at 1;
    [|by rewrite app_nil_r].
  unfold ret at 1.
  destruct (str_bool name); unfold assert at 1, bind at 1; [|by rewrite app_nil_r].
  unfold ret at 1.
  destruct (str_bool nomenclature); unfold assert at 1, bind at 1;
    [|by rewrite app_nil_r].
  unfold ret at 1.
  unfold fetch_features, fetch_gene_count, connect, emit, lift, ret, bind.
  cbn [genes_cache next_id uninit events andb].
  destruct (sqlite_open w (uri_of w fname)) as [f|e]; [|done].
  destruct (select_features f) as [fs|e]; cbn [snd];
    [|f_equal; rewrite <-?app_assoc; reflexivity].
  destruct (select_count f); cbn [snd genes_cache next_id uninit events];
    f_equal; rewrite <-?app_assoc; reflexivity.
Qed.

(** X8: what the constructor does to the state. It never touches the
    cache of [genes] and only adds to the log; when it returns an instance
    it has sent the features statement and then the count statement, each on
    a connection of its own; when one of its assertions fails it has not
    reached the store; past the assertions it has opened a connection. *)
Theorem init_effects (w : World) (fname name nomenclature : string) (st : state) :
  genes_cache (__init__ w fname name nomenclature st).2 = genes_cache st
  ∧ (is_ok (__init__ w fname name nomenclature st).1 = true →
     events (__init__ w fname name nomenclature st).2
     = events st
       ++ [EvConnect (uri_of w fname); EvExecute FEATURE_IDS_QUERY;
           EvConnect (uri_of w fname); EvExecute GENE_ID_COUNT_QUERY])
  ∧ (path_exists w fname = false ∨ name = "" ∨ nomenclature = "" →
     events (__init__ w fname name nomenclature st).2 = events st)
  ∧ (path_exists w fname = true → name ≠ "" → nomenclature ≠ "" →
     ∃ more, events (__init__ w fname name nomenclature st).2
             = events st ++ EvConnect (uri_of w fname) :: more).
Proof.
  rewrite init_state, init_result. cbn [genes_cache events].
  destruct (path_exists w fname); cbn [negb andb];
    [|split_and!; [done|done|by rewrite app_nil_r|done]].
  destruct (str_bool name) eqn:Hname; cbn [negb andb]; last first.
  { split_and!; [done|done|by rewrite app_nil_r|].
    intros _ Hn%str_bool_true. congruence. }
  destruct (str_bool nomenclature) eqn:Hnom; cbn [negb andb]; last first.
  { split_and!; [done|done|by rewrite app_nil_r|].
    intros _ _ Hn%str_bool_true. congruence. }
  apply str_bool_true in Hname, Hnom.
  split_and!; [done| |by intros [?|[?|?]]|by eexists].
  destruct (sqlite_open w (uri_of w fname)) as [f|e]; [|done].
  destruct (select_features f) as [fs|e]; [|done].
  by destruct (select_count f).
Qed.

Lemma init_effects_witness :
  events (__init__ notes_world "/db/notes.txt" "db" "HGNC" st0).2
  = [EvConnect notes_uri; EvExecute FEATURE_IDS_QUERY]
  ∧ events (__init__ notes_world "/db/notes.txt" "" "HGNC" st0).2 = [].
Proof.
  split; [reflexivity|].
  apply (proj1 (proj2 (proj2 (init_effects notes_world "/db/notes.txt" "" "HGNC" st0)))).
  right. by left.
Defined.

Lemma genes_cached (w : World) (self : RankingDatabase) (st st' : state)
    (ids : list string) :
  genes w self st = (Ok ids, st') →
  genes_cache st' !! self_id self = Some ids.
Proof.
  unfold genes. destruct (genes_cache st !! self_id self) as [cached|] eqn:Hc.
  - by intros [= <- <-].
  - unfold connect, emit, memoize_store, ret, lift, bind.
    cbn [genes_cache next_id uninit events].
    destruct (sqlite_open w (_uri self)) as [f|e]; [|done].
    destruct (select_gene_ids f) as [ids'|e]; [|done].
    intros [= <- <-]. apply lookup_insert_eq.
Qed.

(** X9: [genes] is computed once. After an access that returned, every
    later access of the same instance returns the same list and leaves the
    state as it is, whatever the store holds by then: no statement is sent
    again. *)
Theorem genes_memoized (w w' : World) (self : RankingDatabase) (st st' : state)
    (ids : list string) :
  genes w self st = (Ok ids, st') →
  genes w' self st' = (Ok ids, st').
Proof.
  intros Hcached%genes_cached. unfold genes. by rewrite Hcached.
Qed.

Lemma genes_memoized_witness :
  genes no_world demo_self (genes demo_world demo_self st0).2
  = (Ok ["g1"; "g2"; "g3"; "g4"], (genes demo_world demo_self st0).2).
Proof.
  apply (genes_memoized demo_world no_world demo_self st0). by vm_compute.
Defined.

(** X10: [genes] and [total_genes] agree. For an instance made by the
    constructor from a store, the first access to [genes] on that store
    sends the statement, and returns the identifiers in ascending order, as
    many as [total_genes]. *)
Theorem genes_of_constructed (w : World) (fname name nomenclature : string)
    (st0' st : state) (self : RankingDatabase) :
  (__init__ w fname name nomenclature st0').1 = Ok self →
  genes_cache st !! self_id self = None →
  ∃ ids st', genes w self st = (Ok ids, st')
    ∧ Z.of_nat (length ids) = total_genes self
    ∧ StronglySorted String.le ids
    ∧ events st' = events st ++ [EvConnect (_uri self); EvExecute ALL_GENE_IDS_QUERY].
Proof.
  intros (_ & _ & _ & f & ms & rows & Hf & _ & Hrows & Hself)%init_ok Hnone.
  assert (_uri self = uri_of w fname) as Huri by (by subst).
  assert (_gene_count self = Z.of_nat (length rows)) as Hcount by (by subst).
  clear Hself. unfold genes. rewrite Hnone, Huri.
  unfold connect, select_gene_ids, rbind, emit, memoize_store, ret, lift, bind.
  cbn [genes_cache next_id uninit events]. rewrite Hf, Hrows.
  eexists _, _. split; [done|]. cbn [events]. split_and!.
  - unfold total_genes. by rewrite Hcount, length_gene_ids.
  - apply order_by_geneID_sorted.
  - by rewrite <-(assoc_L (++)).
Qed.

Lemma genes_of_constructed_witness :
  ∃ ids st', genes demo_world demo_self st0 = (Ok ids, st')
    ∧ Z.of_nat (length ids) = total_genes demo_self.
Proof.
  destruct (genes_of_constructed demo_world "/db/demo.db" "db" "HGNC" st0 st0 demo_self)
    as (ids & st' & Hgenes & Hlen & _); [reflexivity..|].
  by exists ids, st'.
Defined.

(** ** How the loaders compose *)

(** X11: [load_full] twice. A second call of [load_full], made in the
    state the first call left, gives what the first gave: the same features,
    genes and matrix, or the same exception. *)
Theorem load_full_twice (w : World) (self : RankingDatabase)
    (rows : list (string * list byte)) (st : state) :
  stored_rankings w (_uri self) = Ok rows →
  cache_ok rows self st →
  (load_full w self (load_full w self st).2).1 = (load_full w self st).1.
Proof.
  intros Hstored Hok.
  destruct (load_full_run w self rows st Hstored Hok) as (st' & Hrun & Hcache & Hmem).
  rewrite Hrun. cbn [fst snd].
  rewrite (load_full_result w self rows st' Hstored); [by rewrite Hmem|].
  intros cached Hc. congruence.
Qed.

Lemma load_full_twice_witness :
  (load_full demo_world demo_self (load_full demo_world demo_self st0).2).1
  = (load_full demo_world demo_self st0).1
  ∧ is_ok (load_full demo_world demo_self st0).1 = true.
Proof.
  split; [|reflexivity].
  apply (load_full_twice demo_world demo_self demo_rows st0 eq_refl
           (cache_ok_st0 demo_rows demo_self)).
Defined.

(** X12: [load] agrees with [load_full] gene by gene. When both return,
    every gene of the gene vector of [load] is in the gene vector of
    [load_full], at a position where [load_full] has the very column that
    [load] has for it. *)
Theorem load_agrees_with_load_full (w : World) (self : RankingDatabase)
    (rows : list (string * list byte)) (gs : GeneSignature) (st1 st2 : state)
    (fv gv fv' gv' : list string) (m m' : ndarray) (i : nat) (gene : string) :
  stored_rankings w (_uri self) = Ok rows →
  cache_ok rows self st2 →
  (load w self gs st1).1 = Ok (fv, gv, m) →
  (load_full w self st2).1 = Ok (fv', gv', m') →
  gv !! i = Some gene →
  fv = fv'
  ∧ ∃ j col, gv' !! j = Some gene
      ∧ columns m !! i = Some col
      ∧ columns m' !! j = Some col.
Proof.
  intros Hstored Hok Hload Hfull Hi.
  apply (load_ok w self rows) in Hload as (_ & Hfree & -> & -> & Hfill); [|done].
  rewrite (load_full_result w self rows st2 Hstored Hok) in Hfull.
  destruct (fill_full _ (all_rankings rows) _ _) as [m2|e] eqn:Hfill'; [|done].
  simplify_eq/=. split; [done|].
  apply fill_full_ok in Hfill as (_ & _ & _ & Hcols & _);
    [|by rewrite length_columns_empty_array].
  apply fill_full_ok in Hfill' as (_ & _ & _ & Hcols' & _);
    [|by rewrite length_columns_empty_array].
  apply list_lookup_fmap_Some in Hi as ([gene' blob] & -> & Hrow).
  destruct (Hcols i gene' blob Hrow) as (vals & col & Hvals & Hcol & Hm).
  assert (has_nul gene' = false ∧ (gene', blob) ∈ all_rankings rows) as [Hnul Hin].
  { apply list_elem_of_lookup_2 in Hrow.
    apply elem_of_rankings_in in Hrow as [Hreq Hrow]. split; [by apply Hfree|].
    unfold all_rankings. by rewrite order_by_geneID_perm. }
  apply list_elem_of_lookup_1 in Hin as [j Hj].
  destruct (Hcols' j gene' blob Hj) as (vals' & col' & Hvals' & Hcol' & Hm').
  simpl in *.
  assert (vals' = vals) as -> by congruence.
  assert (col' = col) as -> by congruence.
  exists j, col. split_and!; [|done..].
  unfold np_array_U, gene_ids, all_rankings in *.
  rewrite !list_lookup_fmap, Hj. cbn. by rewrite rstrip_nul_id.
Qed.

Lemma load_agrees_with_load_full_witness :
  ∃ j col,
    columns (NdArray (3%nat, 2%nat) [[1; 2; -1]; [3; 1; 0]]) !! 1%nat = Some col
    ∧ columns (NdArray (3%nat, 4%nat) [[0; 3; 2]; [1; 2; -1]; [2; 0; 1]; [3; 1; 0]]) !! j
      = Some col.
Proof.
  destruct (load_agrees_with_load_full demo_world demo_self demo_rows {["g4"; "g2"]}
              st0 st0 ["f1"; "f2"; "f3"] ["g2"; "g4"]
              ["f1"; "f2"; "f3"] ["g1"; "g2"; "g3"; "g4"]
              (NdArray (3%nat, 2%nat) [[1; 2; -1]; [3; 1; 0]])
              (NdArray (3%nat, 4%nat) [[0; 3; 2]; [1; 2; -1]; [2; 0; 1]; [3; 1; 0]])
              1%nat "g4" eq_refl (cache_ok_st0 demo_rows demo_self))
    as (_ & j & col & _ & Hm & Hm'); [reflexivity..|].
  by exists j, col.
Defined.

(** X13: different lists of identifiers make different [IN] lists:
    [quoted_csv] is injective. *)
Theorem quoted_csv_inj (values1 values2 : list string) :
  quoted_csv values1 = quoted_csv values2 → values1 = values2.
Proof.
  intros Heq.
  pose proof (lex_quoted_csv values1 AtStart [] "" (or_intror eq_refl)) as H1.
  pose proof (lex_quoted_csv values2 AtStart [] "" (or_intror eq_refl)) as H2.
  rewrite Heq, H2 in H1. by simplify_eq/=.
Qed.

Lemma quoted_csv_inj_witness : ["O'Brien1"; "g2"] = ["O'Brien1"; "g2"].
Proof. apply quoted_csv_inj. reflexivity. Defined.

(** X14: a store with no genes. [load_full] returns the features as
    [np.array] shows them, an empty gene vector and a matrix with one row
    per feature and no column. *)
Theorem load_full_no_genes (w : World) (self : RankingDatabase) (st : state) :
  stored_rankings w (_uri self) = Ok [] →
  cache_ok [] self st →
  (load_full w self st).1
  = Ok (np_array_U (features self), [], NdArray (length (features self), 0%nat) []).
Proof.
  intros Hstored Hok. by rewrite (load_full_result w self [] st Hstored Hok).
Qed.

Lemma load_full_no_genes_witness :
  (load_full empty_world empty_self st0).1 = Ok (["f1"], [], NdArray (1%nat, 0%nat) []).
Proof.
  apply (load_full_no_genes empty_world empty_self st0 eq_refl
           (cache_ok_st0 [] empty_self)).
Defined.


